(** * Vote integrity engine of the URBISOL voting backend

    A shallow embedding of the parts of the server ([src/server.js],
    [src/middleware.js], [src/crypto.js]), of the offline verifier
    ([scripts/verify_chain.mjs]) and of the SQL schema ([sql/*.sql]) that
    the integrity properties talk about, followed by the properties.

    Conventions of the embedding
    - JavaScript strings are [string]s of UTF-8 bytes;
    - a nullable SQL column is an [option];
    - [timestamptz] values and JavaScript [Date]s are milliseconds since the
      epoch, as [Z]: a stored time is kept at the precision at which the
      driver hands it to JavaScript;
    - the database is a record of tables, each table the list of its rows
      in insertion order; a handler is a function from the database (and
      the request) to a response and the next database. *)

From Stdlib Require Import ZArith List String Ascii Bool Lia Permutation Sorted.
Import ListNotations.
Open Scope string_scope.
Open Scope list_scope.
Open Scope Z_scope.

(* ================================================================== *)
(** * 1. SHA-256 as computed by Node's [crypto.createHash("sha256")]   *)
(* ================================================================== *)

Module Sha256.

(** 32-bit words are [Z]s in [0, 2^32); every operation wraps explicitly. *)
Definition wrap (x : Z) : Z := x mod 4294967296.
Definition plus32 (x y : Z) : Z := wrap (x + y).
Definition rotr (n x : Z) : Z :=
  Z.lor (Z.shiftr x n) (wrap (Z.shiftl x (32 - n))).
Definition not32 (x : Z) : Z := Z.lxor x 4294967295.

Definition ch (x y z : Z) : Z := Z.lxor (Z.land x y) (Z.land (not32 x) z).
Definition maj (x y z : Z) : Z :=
  Z.lxor (Z.lxor (Z.land x y) (Z.land x z)) (Z.land y z).
Definition bsig0 (x : Z) : Z := Z.lxor (Z.lxor (rotr 2 x) (rotr 13 x)) (rotr 22 x).
Definition bsig1 (x : Z) : Z := Z.lxor (Z.lxor (rotr 6 x) (rotr 11 x)) (rotr 25 x).
Definition ssig0 (x : Z) : Z := Z.lxor (Z.lxor (rotr 7 x) (rotr 18 x)) (Z.shiftr x 3).
Definition ssig1 (x : Z) : Z := Z.lxor (Z.lxor (rotr 17 x) (rotr 19 x)) (Z.shiftr x 10).

(** The constants of the standard are fractional parts of roots of the
    first primes, on 32 bits; they are computed here rather than listed. *)
Definition is_prime (n : Z) : bool :=
  (1 <? n)
  && forallb (fun d => negb (n mod Z.of_nat d =? 0)) (seq 2 (Z.to_nat n - 2)).

Definition primes_below (bound : nat) : list Z :=
  filter is_prime (map Z.of_nat (seq 0 bound)).

(** Integer cube root, one bit at a time from bit [i - 1] down. *)
Fixpoint cube_root_bits (i : nat) (n r : Z) : Z :=
  match i with
  | O => r
  | S j =>
      let r' := r + 2 ^ Z.of_nat j in
      cube_root_bits j n (if r' * r' * r' <=? n then r' else r)
  end.

Definition frac_cube_root (p : Z) : Z := wrap (cube_root_bits 40 (p * 2 ^ 96) 0).
Definition frac_square_root (p : Z) : Z := wrap (Z.sqrt (p * 2 ^ 64)).

Definition round_constants : list Z :=
  Eval vm_compute in map frac_cube_root (firstn 64 (primes_below 312)).

Definition initial_state : list Z :=
  Eval vm_compute in map frac_square_root (firstn 8 (primes_below 20)).

(** Big-endian bytes of a number, [n] of them. *)
Fixpoint be_bytes (n : nat) (x : Z) : list Z :=
  match n with
  | O => []
  | S k => be_bytes k (x / 256) ++ [x mod 256]
  end.

Fixpoint zeros (n : nat) : list Z :=
  match n with O => [] | S k => 0 :: zeros k end.

(** The message, the byte 0x80, zero bytes up to 56 modulo 64, and the bit
    length on eight bytes. *)
Definition pad (msg : list Z) : list Z :=
  let len := Z.of_nat (List.length msg) in
  let fill := Z.to_nat ((55 - len) mod 64) in
  msg ++ 128 :: zeros fill ++ be_bytes 8 (8 * len).

Fixpoint words_of (fuel : nat) (bs : list Z) : list Z :=
  match fuel, bs with
  | S k, b0 :: b1 :: b2 :: b3 :: rest =>
      (((b0 * 256 + b1) * 256 + b2) * 256 + b3) :: words_of k rest
  | _, _ => []
  end.

(** The message schedule: [win] holds the last sixteen words, oldest
    first; each step emits the oldest and appends the next one. *)
Fixpoint schedule (n : nat) (win : list Z) : list Z :=
  match n with
  | O => []
  | S k =>
      match win with
      | w0 :: rest =>
          let w1 := nth 0 rest 0 in
          let w9 := nth 8 rest 0 in
          let w14 := nth 13 rest 0 in
          let next := plus32 (plus32 (ssig1 w14) w9) (plus32 (ssig0 w1) w0) in
          w0 :: schedule k (rest ++ [next])
      | [] => []
      end
  end.

Record regs := Regs { ra : Z; rb : Z; rc : Z; rd : Z; re : Z; rf : Z; rg : Z; rh : Z }.

Definition round (s : regs) (kw : Z * Z) : regs :=
  let t1 := plus32 (plus32 (plus32 (rh s) (bsig1 (re s)))
                           (plus32 (ch (re s) (rf s) (rg s)) (fst kw))) (snd kw) in
  let t2 := plus32 (bsig0 (ra s)) (maj (ra s) (rb s) (rc s)) in
  Regs (plus32 t1 t2) (ra s) (rb s) (rc s) (plus32 (rd s) t1) (re s) (rf s) (rg s).

Definition regs_of (h : list Z) : regs :=
  Regs (nth 0 h 0) (nth 1 h 0) (nth 2 h 0) (nth 3 h 0)
       (nth 4 h 0) (nth 5 h 0) (nth 6 h 0) (nth 7 h 0).

Definition compress (h : list Z) (block : list Z) : list Z :=
  let s0 := regs_of h in
  let s := fold_left round (combine round_constants (schedule 64 block)) s0 in
  [ plus32 (ra s0) (ra s); plus32 (rb s0) (rb s); plus32 (rc s0) (rc s);
    plus32 (rd s0) (rd s); plus32 (re s0) (re s); plus32 (rf s0) (rf s);
    plus32 (rg s0) (rg s); plus32 (rh s0) (rh s) ].

Fixpoint blocks (fuel : nat) (h : list Z) (ws : list Z) : list Z :=
  match fuel with
  | O => h
  | S k =>
      match ws with
      | [] => h
      | _ => blocks k (compress h (firstn 16 ws)) (skipn 16 ws)
      end
  end.

Definition digest (msg : list Z) : list Z :=
  let bs := pad msg in
  let ws := words_of (List.length bs) bs in
  flat_map (be_bytes 4) (blocks (List.length ws) initial_state ws).

End Sha256.

(** ** Bytes, hexadecimal and decimal text *)

Definition bytes_of_string (s : string) : list Z :=
  map (fun c => Z.of_N (N_of_ascii c)) (list_ascii_of_string s).

Definition hex_digit (d : Z) : ascii :=
  ascii_of_N (Z.to_N (if d <? 10 then 48 + d else 87 + d)).

Fixpoint hex_of_bytes (bs : list Z) : string :=
  match bs with
  | [] => EmptyString
  | b :: rest => String (hex_digit (b / 16)) (String (hex_digit (b mod 16)) (hex_of_bytes rest))
  end.

(** [crypto.createHash("sha256").update(s, "utf8").digest("hex")]
    ([sha256Hex] of scripts/verify_chain.mjs). *)
Definition sha256Hex (s : string) : string :=
  hex_of_bytes (Sha256.digest (bytes_of_string s)).


(* ================================================================== *)
(** * 2. JavaScript values and [JSON.stringify]                        *)
(* ================================================================== *)

Definition digit_char (d : Z) : ascii := ascii_of_N (Z.to_N (48 + d)).

(** Decimal digits of a natural number, most significant first. *)
Fixpoint digits_fuel (fuel : nat) (n : Z) (acc : string) : string :=
  match fuel with
  | O => acc
  | S k =>
      let acc' := String (digit_char (n mod 10)) acc in
      if n / 10 =? 0 then acc' else digits_fuel k (n / 10) acc'
  end.

Definition digits (n : Z) : string :=
  digits_fuel (S (Z.to_nat (Z.log2 n))) n EmptyString.

(** [String(n)] for an integer [n]. *)
Definition string_of_Z (n : Z) : string :=
  if n <? 0 then String "-"%char (digits (- n)) else digits n.

(** A non-negative number on at least [width] digits, zero-filled. *)
Fixpoint zero_fill (missing : nat) (s : string) : string :=
  match missing with
  | O => s
  | S k => String "0"%char (zero_fill k s)
  end.

Definition fixed_digits (width : nat) (n : Z) : string :=
  let s := digits n in zero_fill (width - String.length s) s.

(** ** [Date.prototype.toISOString] *)

(** Year, month and day of a day count since 1970-01-01 (proleptic
    Gregorian calendar). *)
Definition civil_of_days (d : Z) : Z * Z * Z :=
  let z := d + 719468 in
  let era := z / 146097 in
  let doe := z - era * 146097 in
  let yoe := (doe - doe / 1460 + doe / 36524 - doe / 146096) / 365 in
  let doy := doe - (365 * yoe + yoe / 4 - yoe / 100) in
  let mp := (5 * doy + 2) / 153 in
  let day := doy - (153 * mp + 2) / 5 + 1 in
  let month := if mp <? 10 then mp + 3 else mp - 9 in
  let year := yoe + era * 400 + (if month <=? 2 then 1 else 0) in
  (year, month, day).

Definition iso_year (y : Z) : string :=
  if (0 <=? y) && (y <=? 9999) then fixed_digits 4 y
  else String (if y <? 0 then "-"%char else "+"%char) (fixed_digits 6 (Z.abs y)).

Definition toISOString (ms : Z) : string :=
  let t := ms mod 86400000 in
  let '(y, m, d) := civil_of_days (ms / 86400000) in
  (iso_year y ++ "-" ++ fixed_digits 2 m ++ "-" ++ fixed_digits 2 d ++ "T"
   ++ fixed_digits 2 (t / 3600000) ++ ":" ++ fixed_digits 2 (t / 60000 mod 60)
   ++ ":" ++ fixed_digits 2 (t / 1000 mod 60) ++ "." ++ fixed_digits 3 (t mod 1000)
   ++ "Z")%string.

(** ** Values and their JSON text *)

Inductive jsval :=
| JNull
| JBool (b : bool)
| JNum (n : Z)
| JStr (s : string)
| JDate (ms : Z).

Definition jsobject := list (string * jsval).

Definition dquote : ascii := ascii_of_N 34.

(** One character inside a JSON string literal (QuoteJSONString). *)
Definition json_escape_char (c : ascii) : string :=
  let n := Z.of_N (N_of_ascii c) in
  if n =? 34 then String "\"%char (String dquote EmptyString)
  else if n =? 92 then "\\"
  else if n =? 8 then "\b"
  else if n =? 12 then "\f"
  else if n =? 10 then "\n"
  else if n =? 13 then "\r"
  else if n =? 9 then "\t"
  else if n <? 32 then
    String "\"%char (String "u"%char (String "0"%char (String "0"%char
      (String (hex_digit (n / 16)) (String (hex_digit (n mod 16)) EmptyString)))))
  else String c EmptyString.

Fixpoint json_escape (s : string) : string :=
  match s with
  | EmptyString => EmptyString
  | String c rest => (json_escape_char c ++ json_escape rest)%string
  end.

Definition json_quote (s : string) : string :=
  String dquote (json_escape s ++ String dquote EmptyString)%string.

Definition json_of_val (v : jsval) : string :=
  match v with
  | JNull => "null"
  | JBool true => "true"
  | JBool false => "false"
  | JNum n => string_of_Z n
  | JStr s => json_quote s
  | JDate ms => json_quote (toISOString ms)
  end.

Fixpoint json_members (o : jsobject) : string :=
  match o with
  | [] => EmptyString
  | [(k, v)] => (json_quote k ++ ":" ++ json_of_val v)%string
  | (k, v) :: rest => (json_quote k ++ ":" ++ json_of_val v ++ "," ++ json_members rest)%string
  end.

(** [JSON.stringify(o)] for an object whose properties are of the kinds
    above, in property order. *)
Definition JSON_stringify (o : jsobject) : string :=
  ("{" ++ json_members o ++ "}")%string.

(** Strict equality [===] on nullable strings (a [text] column read by the
    driver is [null] or a string). *)
Definition opt_string_eqb (a b : option string) : bool :=
  match a, b with
  | None, None => true
  | Some x, Some y => String.eqb x y
  | _, _ => false
  end.

(* ================================================================== *)
(** * 3. The relational store (sql/001 .. sql/005)                     *)
(* ================================================================== *)

Inductive token_status := ACTIVE | USED | REVOKED | EXPIRED.
Inductive registration_status := PENDING | APPROVED | REJECTED.

Definition token_status_eqb (a b : token_status) : bool :=
  match a, b with
  | ACTIVE, ACTIVE | USED, USED | REVOKED, REVOKED | EXPIRED, EXPIRED => true
  | _, _ => false
  end.

Definition registration_status_eqb (a b : registration_status) : bool :=
  match a, b with
  | PENDING, PENDING | APPROVED, APPROVED | REJECTED, REJECTED => true
  | _, _ => false
  end.

(** [elections] (sql/003). *)
Record election_row := Election {
  e_id : Z;
  e_title : string;
  e_vote_open_at : Z;
  e_vote_close_at : Z;
  e_is_active : bool
}.

(** [registrations] (sql/001, [election_id] added by sql/003). *)
Record registration_row := Registration {
  r_id : Z;
  r_election_id : option Z;
  r_unit_id : Z;
  r_email : option string;
  r_status : registration_status;
  r_reviewed_at : option Z;
  r_reviewed_by : option Z
}.

(** [vote_tokens] (sql/001, [election_id] added by sql/003). *)
Record token_row := Token {
  t_id : Z;
  t_election_id : option Z;
  t_registration_id : Z;
  t_unit_id : Z;
  t_token_hash : string;
  t_status : token_status;
  t_issued_at : Z;
  t_used_at : option Z;
  t_issued_via : string
}.

(** A row of [votes] or of [fiscal_votes]: the two tables have the same
    columns but for the name of the choice ([candidate_id],
    [fiscal_list_id]).  The three chain columns are the ones sql/005 adds:
    nullable, without default. *)
Record ballot := Ballot {
  b_id : Z;
  b_election_id : option Z;
  b_unit_id : Z;
  b_choice_id : Z;
  b_token_id : Z;
  b_cast_at : Z;
  b_ip : option string;
  b_user_agent : option string;
  b_chain_position : option Z;
  b_previous_hash : option string;
  b_vote_hash : option string
}.

(** [election_seals] (sql/005). *)
Record seal_row := Seal {
  s_election_id : Z;
  s_kind : string;
  s_global_hash : string;
  s_total_votes : Z
}.

(** [audit_log] as the server's [audit] fills it. *)
Record audit_row := Audit {
  a_event : string;
  a_actor_admin_id : option Z;
  a_unit_id : option Z;
  a_registration_id : option Z;
  a_token_id : option Z;
  a_election_id : option Z;
  a_meta_json : jsobject
}.

(** The tables.  [candidates] and [fiscal_lists] are kept as the lists of
    their primary keys, which is all the ballot tables refer to; [units]
    is left out, the unit of a ballot being copied from a credential that
    already refers to it. *)
Record db := Db {
  elections : list election_row;
  registrations : list registration_row;
  vote_tokens : list token_row;
  candidates : list Z;
  fiscal_lists : list Z;
  votes : list ballot;
  fiscal_votes : list ballot;
  election_seals : list seal_row;
  audit_log : list audit_row
}.

Definition with_registrations (d : db) (x : list registration_row) : db :=
  Db (elections d) x (vote_tokens d) (candidates d) (fiscal_lists d)
     (votes d) (fiscal_votes d) (election_seals d) (audit_log d).
Definition with_vote_tokens (d : db) (x : list token_row) : db :=
  Db (elections d) (registrations d) x (candidates d) (fiscal_lists d)
     (votes d) (fiscal_votes d) (election_seals d) (audit_log d).
Definition with_votes (d : db) (x : list ballot) : db :=
  Db (elections d) (registrations d) (vote_tokens d) (candidates d) (fiscal_lists d)
     x (fiscal_votes d) (election_seals d) (audit_log d).
Definition with_fiscal_votes (d : db) (x : list ballot) : db :=
  Db (elections d) (registrations d) (vote_tokens d) (candidates d) (fiscal_lists d)
     (votes d) x (election_seals d) (audit_log d).
Definition with_audit_log (d : db) (x : list audit_row) : db :=
  Db (elections d) (registrations d) (vote_tokens d) (candidates d) (fiscal_lists d)
     (votes d) (fiscal_votes d) (election_seals d) x.

(** ** Errors of the driver *)

Inductive pg_error :=
| unique_violation
| foreign_key_violation
| invalid_text_representation.

(** [e.code] *)
Definition code (e : pg_error) : string :=
  match e with
  | unique_violation => "23505"
  | foreign_key_violation => "23503"
  | invalid_text_representation => "22P02"
  end.

(** ** Uniqueness constraints of the ballot tables *)

Inductive column := col_election_id | col_unit_id | col_choice_id | col_token_id.

Definition column_value (c : column) (b : ballot) : option Z :=
  match c with
  | col_election_id => b_election_id b
  | col_unit_id => Some (b_unit_id b)
  | col_choice_id => Some (b_choice_id b)
  | col_token_id => Some (b_token_id b)
  end.

(** sql/001_schema.sql, table [votes]: [UNIQUE(unit_id)].  No later
    migration touches the constraint; sql/003 only adds the
    [election_id] column. *)
Definition votes_unique : list column := [col_unit_id].

(** sql/004 and sql/005, table [fiscal_votes]:
    [UNIQUE(election_id, unit_id)]. *)
Definition fiscal_votes_unique : list column := [col_election_id; col_unit_id].

(** Two rows collide on a constraint when they agree on each of its
    columns; a NULL agrees with nothing. *)
Definition same_key (cols : list column) (x y : ballot) : bool :=
  forallb (fun c =>
             match column_value c x, column_value c y with
             | Some u, Some v => u =? v
             | _, _ => false
             end) cols.

(** SERIAL primary keys: the model hands out one more than the largest
    key of the table (the gaps a sequence leaves after a failed insert are
    not represented). *)
Definition next_id {A} (key : A -> Z) (rows : list A) : Z :=
  1 + fold_right (fun r m => Z.max (key r) m) 0 rows.

(** [INSERT] into a ballot table: the uniqueness constraint, then the
    foreign key of the choice, then the row at the end of the table. *)
Definition insert_ballot (unique : list column) (choices : list Z)
           (table : list ballot) (row : ballot) : pg_error + list ballot :=
  if existsb (same_key unique row) table then inl unique_violation
  else if negb (existsb (Z.eqb (b_choice_id row)) choices) then inl foreign_key_violation
  else inr (table ++ [row]).

(* ================================================================== *)
(** * 4. The offline verifier (scripts/verify_chain.mjs)               *)
(* ================================================================== *)

Module VerifyChain.

(** What the driver hands to JavaScript for a column: an [integer] is a
    number, a [bigint] is a string of digits, a [timestamptz] is a [Date],
    NULL is [null]. *)
Definition js_of_integer (o : option Z) : jsval :=
  match o with None => JNull | Some n => JNum n end.
Definition js_of_bigint (o : option Z) : jsval :=
  match o with None => JNull | Some n => JStr (string_of_Z n) end.
Definition js_of_text (o : option string) : jsval :=
  match o with None => JNull | Some s => JStr s end.

(** The two [payloadBuilder] arrow functions. *)
Definition payload (choice_key : string) (r : ballot) (previous_hash : option string)
  : jsobject :=
  [ ("election_id", js_of_integer (b_election_id r));
    ("unit_id", JNum (b_unit_id r));
    (choice_key, JNum (b_choice_id r));
    ("token_id", JNum (b_token_id r));
    ("cast_at", JDate (b_cast_at r));
    ("previous_hash", js_of_text previous_hash);
    ("chain_position", js_of_bigint (b_chain_position r)) ].

Definition payload_votes := payload "candidate_id".
Definition payload_fiscal_votes := payload "fiscal_list_id".

(** The three [throw new Error(...)] of [verifyTable]; the position is the
    [r.chain_position] interpolated in the message. *)
Inductive verify_error :=
| ChainBroken (chain_position : option Z)
| InvalidHash (chain_position : option Z)
| SealMismatch.

(** The two branches that only log. *)
Inductive seal_report := NoSeal | SealMatches.

(** [ORDER BY chain_position ASC]: NULLs come last; rows with the same
    position keep their table order. *)
Definition position_leb (a b : option Z) : bool :=
  match a, b with
  | Some x, Some y => x <=? y
  | Some _, None => true
  | None, Some _ => false
  | None, None => true
  end.

Fixpoint place (r : ballot) (sorted : list ballot) : list ballot :=
  match sorted with
  | [] => [r]
  | h :: t =>
      if position_leb (b_chain_position h) (b_chain_position r)
      then h :: place r t
      else r :: h :: t
  end.

Definition order_by_chain_position (rows : list ballot) : list ballot :=
  fold_left (fun acc r => place r acc) rows [].

Definition opt_Z_eqb (a b : option Z) : bool :=
  match a, b with
  | Some x, Some y => x =? y
  | None, None => true
  | _, _ => false
  end.

(** [SELECT * FROM table WHERE election_id=$1 ORDER BY chain_position ASC] *)
Definition select_chain (table : list ballot) (electionId : Z) : list ballot :=
  order_by_chain_position
    (filter (fun r => opt_Z_eqb (b_election_id r) (Some electionId)) table).

(** [concatenated += r.vote_hash] *)
Definition text_of (o : option string) : string :=
  match o with None => "null" | Some s => s end.

(** The [for (const r of rows)] loop, with its two variables. *)
Fixpoint walk (payloadBuilder : ballot -> option string -> jsobject)
         (rows : list ballot) (prevHash : option string) (concatenated : string)
  : verify_error + string :=
  match rows with
  | [] => inr concatenated
  | r :: rest =>
      if negb (opt_string_eqb (b_previous_hash r) prevHash)
      then inl (ChainBroken (b_chain_position r))
      else
        let expectedHash := sha256Hex (JSON_stringify (payloadBuilder r prevHash)) in
        if negb (opt_string_eqb (Some expectedHash) (b_vote_hash r))
        then inl (InvalidHash (b_chain_position r))
        else walk payloadBuilder rest (b_vote_hash r)
                  (concatenated ++ text_of (b_vote_hash r))%string
  end.

(** [SELECT global_hash FROM election_seals WHERE election_id=$1 AND kind=$2],
    first row. *)
Definition select_seal (seals : list seal_row) (electionId : Z) (kind : string)
  : option string :=
  option_map s_global_hash
    (find (fun s => (s_election_id s =? electionId) && String.eqb (s_kind s) kind) seals).

(** [verifyTable]: the rows of one table, the seal table; the result is
    the thrown error, or what was logged and the global hash. *)
Definition verifyTable (table : list ballot)
           (payloadBuilder : ballot -> option string -> jsobject) (kind : string)
           (seals : list seal_row) (electionId : Z)
  : verify_error + (seal_report * string) :=
  let rows := select_chain table electionId in
  match walk payloadBuilder rows (Some "GENESIS") EmptyString with
  | inl e => inl e
  | inr concatenated =>
      let globalHash := sha256Hex concatenated in
      match select_seal seals electionId kind with
      | None => inr (NoSeal, globalHash)
      | Some stored =>
          if negb (String.eqb stored globalHash) then inl SealMismatch
          else inr (SealMatches, globalHash)
      end
  end.

(** The script: usage error when the argument is missing or zero, else
    the council table, then the fiscal table. *)
Inductive run :=
| Usage
| Failed (e : verify_error)
| Consistent (council fiscal : seal_report * string).

Definition main (d : db) (electionId : Z) : run :=
  if electionId =? 0 then Usage
  else
    match verifyTable (votes d) payload_votes "COUNCIL" (election_seals d) electionId with
    | inl e => Failed e
    | inr council =>
        match verifyTable (fiscal_votes d) payload_fiscal_votes "FISCAL"
                          (election_seals d) electionId with
        | inl e => Failed e
        | inr fiscal => Consistent council fiscal
        end
    end.

End VerifyChain.

(* ================================================================== *)
(** * 5. The server (src/server.js, src/middleware.js, src/crypto.js)  *)
(* ================================================================== *)

(** What a handler answers.  The locals given to a view are not
    represented; [Uncaught] stands for an exception no [catch] handles. *)
Inductive response :=
| Render (view : string)
| Redirect (url : string)
| Send (status : Z) (body : string)
| Uncaught (what : string).

(** The surroundings of a request: the [TOKEN_SECRET] variable (read as
    [process.env.TOKEN_SECRET || ""]), the server's clock ([now()]) and the
    database's ([NOW()]). *)
Record env := Env {
  TOKEN_SECRET : string;
  js_now : Z;
  sql_now : Z
}.

(** ** src/middleware.js *)

Record admin_info := Admin { admin_id : Z; admin_email : string; admin_role : string }.

(** [req.session]: absent, or an object whose [admin] is absent or the
    object the login stored. *)
Record session := Session { admin : option admin_info }.

Inductive middleware_result :=
| next
| respond (r : response).

(** [req.session?.admin?.id]; [None] is [undefined]. *)
Definition session_admin_id (s : option session) : option Z :=
  match s with
  | None => None
  | Some se =>
      match admin se with
      | None => None
      | Some a => Some (admin_id a)
      end
  end.

(** Truthiness of a number that may be [undefined]. *)
Definition truthy (o : option Z) : bool :=
  match o with
  | None => false
  | Some n => negb (n =? 0)
  end.

Definition requireAdmin (s : option session) : middleware_result :=
  if truthy (session_admin_id s) then next
  else respond (Redirect "/admin/login").

Definition requireViewerOrAdmin (s : option session) : middleware_result :=
  if truthy (session_admin_id s) then next
  else respond (Redirect "/admin/login").

(** ** src/crypto.js *)

Definition hashToken (en : env) (token : string) : string :=
  sha256Hex (token ++ TOKEN_SECRET en)%string.

(** ** Helpers of src/server.js *)

Definition getActiveElection (d : db) : option election_row :=
  find e_is_active (elections d).

Definition inWindow (t start finish : Z) : bool :=
  (start <=? t) && (t <=? finish).

Definition audit (d : db) (row : audit_row) : db :=
  with_audit_log d (audit_log d ++ [row]).

(** A numeric form field or route parameter after [Number(...)]: absent
    or empty (falsy), text PostgreSQL refuses for an [integer] column, or
    an integer. *)
Inductive form_number :=
| Missing
| NotInteger
| Int (n : Z).

Record vote_request := VoteRequest {
  params_token : string;
  body_candidate_id : form_number;
  body_fiscal_list_id : form_number;
  req_ip : option string;
  header_user_agent : option string
}.

(** [req.headers["user-agent"] || ""] *)
Definition user_agent_of (req : vote_request) : string :=
  match header_user_agent req with Some s => s | None => EmptyString end.

Definition election_is (eid : Z) (o : option Z) : bool :=
  match o with Some x => x =? eid | None => false end.

(** [SELECT * FROM vote_tokens WHERE token_hash=$1 AND election_id=$2] *)
Definition select_token (d : db) (tokenHash : string) (eid : Z) : option token_row :=
  find (fun t => String.eqb (t_token_hash t) tokenHash && election_is eid (t_election_id t))
       (vote_tokens d).

(** The same with [JOIN registrations r ON r.id = vt.registration_id]. *)
Definition select_token_joined (d : db) (tokenHash : string) (eid : Z) : option token_row :=
  find (fun t => String.eqb (t_token_hash t) tokenHash && election_is eid (t_election_id t)
                 && existsb (fun r => r_id r =? t_registration_id t) (registrations d))
       (vote_tokens d).

(** [SELECT 1 FROM votes WHERE election_id=$1 AND unit_id=$2 LIMIT 1]
    has a row. *)
Definition has_ballot (table : list ballot) (eid unit : Z) : bool :=
  existsb (fun b => election_is eid (b_election_id b) && (b_unit_id b =? unit)) table.

(** [UPDATE vote_tokens SET status='USED', used_at=NOW() WHERE id=$1] *)
Definition mark_used (en : env) (id : Z) (d : db) : db :=
  with_vote_tokens d
    (map (fun t =>
            if t_id t =? id
            then Token (t_id t) (t_election_id t) (t_registration_id t) (t_unit_id t)
                       (t_token_hash t) USED (t_issued_at t) (Some (sql_now en))
                       (t_issued_via t)
            else t)
         (vote_tokens d)).

(** The row an [INSERT INTO votes(election_id, unit_id, candidate_id,
    token_id, ip, user_agent)] builds: [id] from the sequence, [cast_at]
    from its default, the chain columns NULL. *)
Definition new_ballot (en : env) (table : list ballot) (eid : Z) (vt : token_row)
           (choice : Z) (req : vote_request) : ballot :=
  Ballot (next_id b_id table) (Some eid) (t_unit_id vt) choice (t_id vt) (sql_now en)
         (req_ip req) (Some (user_agent_of req)) None None None.

(** ** Transactions *)

(** How a [try] block that began a transaction ends when nothing is
    thrown: at its [COMMIT], with the database it wrote, or at a
    [ROLLBACK] followed by a [return]. *)
Inductive tx_end (A : Type) :=
| COMMIT (a : A) (d : db)
| ROLLBACK (r : response).
Arguments COMMIT {A} a d.
Arguments ROLLBACK {A} r.

(** A thrown driver error, or the end of the block. *)
Definition tx (A : Type) : Type := (pg_error + tx_end A)%type.

Definition insert_with (unique : list column) (choices : list Z) (table : list ballot)
           (choice : form_number) (mk : Z -> ballot) : pg_error + list ballot :=
  match choice with
  | Int n => insert_ballot unique choices table (mk n)
  | _ => inl invalid_text_representation
  end.

(** ** [GET /votar/:token] *)

Definition get_votar (en : env) (d : db) (req : vote_request) : response * db :=
  match getActiveElection d with
  | None => (Send 500 "No hay elección activa.", d)
  | Some election =>
      let tokenHash := hashToken en (params_token req) in
      match select_token_joined d tokenHash (e_id election) with
      | None => (Send 404 "Enlace inválido.", d)
      | Some vt =>
          let voteOpen :=
            inWindow (js_now en) (e_vote_open_at election) (e_vote_close_at election) in
          if negb voteOpen then (Render "vote_preview", d)
          else
            let hasCouncil := has_ballot (votes d) (e_id election) (t_unit_id vt) in
            let hasFiscal := has_ballot (fiscal_votes d) (e_id election) (t_unit_id vt) in
            if hasCouncil && hasFiscal then
              (Render "vote_used",
               if token_status_eqb (t_status vt) ACTIVE then mark_used en (t_id vt) d else d)
            else if negb hasCouncil then (Render "vote_council", d)
            else (Render "vote_fiscal", d)
      end
  end.

(** ** [POST /votar/:token] *)

(** From [BEGIN] to [COMMIT]. *)
Definition post_votar_tx (en : env) (d : db) (election : election_row)
           (req : vote_request) : tx token_row :=
  match select_token d (hashToken en (params_token req)) (e_id election) with
  | None => inr (ROLLBACK (Send 404 "Enlace inválido."))
  | Some vt =>
      if negb (token_status_eqb (t_status vt) ACTIVE)
      then inr (ROLLBACK (Render "vote_used"))
      else
        match insert_with votes_unique (candidates d) (votes d) (body_candidate_id req)
                          (fun n => new_ballot en (votes d) (e_id election) vt n req) with
        | inl e => inl e
        | inr rows => inr (COMMIT vt (with_votes d rows))
        end
  end.

Definition choice_meta (key : string) (f : form_number) : jsobject :=
  match f with Int n => [(key, JNum n)] | _ => [(key, JNull)] end.

Definition post_votar (en : env) (d : db) (req : vote_request) : response * db :=
  match getActiveElection d with
  | None => (Send 500 "No hay elección activa.", d)
  | Some election =>
      if negb (inWindow (js_now en) (e_vote_open_at election) (e_vote_close_at election))
      then (Render "closed", d)
      else
        match body_candidate_id req with
        | Missing => (Send 400 "Elige una lista.", d)
        | _ =>
            match post_votar_tx en d election req with
            | inr (ROLLBACK r) => (r, d)
            | inr (COMMIT vt d1) =>
                (Redirect ("/votar/" ++ params_token req),
                 audit d1 (Audit "VOTE_CAST" None (Some (t_unit_id vt)) None
                                 (Some (t_id vt)) (Some (e_id election))
                                 (choice_meta "candidate_id" (body_candidate_id req))))
            | inl e =>
                if String.eqb (code e) "23505" then (Render "vote_used", d)
                else (Send 500 "Error registrando voto.", d)
            end
        end
  end.

(** ** [POST /votar/:token/fiscales] *)

(** From [BEGIN] to [COMMIT]; the value carried to the commit is the
    token row and [hasCouncil.rows.length] being non-zero. *)
Definition post_fiscales_tx (en : env) (d : db) (election : election_row)
           (req : vote_request) : tx (token_row * bool) :=
  match select_token d (hashToken en (params_token req)) (e_id election) with
  | None => inr (ROLLBACK (Send 404 "Enlace inválido."))
  | Some vt =>
      if negb (token_status_eqb (t_status vt) ACTIVE)
      then inr (ROLLBACK (Render "vote_used"))
      else
        match insert_with fiscal_votes_unique (fiscal_lists d) (fiscal_votes d)
                          (body_fiscal_list_id req)
                          (fun n => new_ballot en (fiscal_votes d) (e_id election) vt n req) with
        | inl e => inl e
        | inr rows =>
            let d1 := with_fiscal_votes d rows in
            let hasCouncil := has_ballot (votes d1) (e_id election) (t_unit_id vt) in
            let d2 := if hasCouncil then mark_used en (t_id vt) d1 else d1 in
            inr (COMMIT (vt, hasCouncil) d2)
        end
  end.

Definition post_fiscales (en : env) (d : db) (req : vote_request) : response * db :=
  match getActiveElection d with
  | None => (Send 500 "No hay elección activa.", d)
  | Some election =>
      if negb (inWindow (js_now en) (e_vote_open_at election) (e_vote_close_at election))
      then (Render "vote_preview", d)
      else
        match body_fiscal_list_id req with
        | Missing => (Send 400 "Elige una lista de fiscales.", d)
        | _ =>
            match post_fiscales_tx en d election req with
            | inr (ROLLBACK r) => (r, d)
            | inr (COMMIT (vt, hasCouncil) d2) =>
                let d3 :=
                  audit d2 (Audit "FISCAL_VOTE_CAST" None (Some (t_unit_id vt)) None
                                  (Some (t_id vt)) (Some (e_id election))
                                  (choice_meta "fiscal_list_id" (body_fiscal_list_id req))) in
                if negb hasCouncil then (Redirect ("/votar/" ++ params_token req), d3)
                else (Render "vote_done", d3)
            | inl e =>
                if String.eqb (code e) "23505"
                then (Redirect ("/votar/" ++ params_token req), d)
                else (Send 500 "Error registrando voto fiscal.", d)
            end
        end
  end.

(** ** Issuing credentials: [POST /admin/solicitudes/:id/aprobar] and
       [.../reemitir] *)

(** What [sendVoteLink] did: returned [sent], or threw. *)
Inductive mail_outcome :=
| Mailed (sent : bool)
| MailFailed (message : string).

(** A request to one of the two routes: the session, [Number(req.params.id)],
    the string [newToken()] draws for it and what the mailer does. *)
Record admin_request := AdminRequest {
  req_session : option session;
  params_id : Z;
  drawn_token : string;
  mail : mail_outcome
}.

(** [UPDATE vote_tokens SET status='REVOKED'
     WHERE election_id=$1 AND unit_id=$2 AND status='ACTIVE'] *)
Definition revoke_row (eid unit : Z) (t : token_row) : token_row :=
  if election_is eid (t_election_id t) && (t_unit_id t =? unit)
     && token_status_eqb (t_status t) ACTIVE
  then Token (t_id t) (t_election_id t) (t_registration_id t) (t_unit_id t)
             (t_token_hash t) REVOKED (t_issued_at t) (t_used_at t) (t_issued_via t)
  else t.

Definition revoke_active (eid unit : Z) (d : db) : db :=
  with_vote_tokens d (map (revoke_row eid unit) (vote_tokens d)).

(** [INSERT INTO vote_tokens(election_id, registration_id, unit_id,
    token_hash, issued_via) VALUES ($1,$2,$3,$4,'EMAIL') RETURNING id];
    [token_hash] is UNIQUE, [status] defaults to ACTIVE. *)
Definition insert_token (en : env) (d : db) (eid registration unit : Z) (tokenHash : string)
  : pg_error + (Z * db) :=
  if existsb (fun t => String.eqb (t_token_hash t) tokenHash) (vote_tokens d)
  then inl unique_violation
  else
    let id := next_id t_id (vote_tokens d) in
    inr (id, with_vote_tokens d
               (vote_tokens d ++
                [Token id (Some eid) registration unit tokenHash ACTIVE (sql_now en) None
                       "EMAIL"])).

Definition mail_audit (adm : admin_info) (eid registration unit tokenId : Z)
           (reissue : bool) (m : mail_outcome) : audit_row :=
  let extra := if reissue then [("reissue", JBool true)] else [] in
  match m with
  | Mailed sent =>
      Audit "TOKEN_EMAIL_SENT" (Some (admin_id adm)) (Some unit) (Some registration)
            (Some tokenId) (Some eid) (("sent", JBool sent) :: extra)
  | MailFailed msg =>
      Audit "TOKEN_EMAIL_FAILED" (Some (admin_id adm)) (Some unit) (Some registration)
            (Some tokenId) (Some eid) (("error", JStr msg) :: extra)
  end.

Definition pending_in (eid id : Z) (r : registration_row) : bool :=
  (r_id r =? id) && election_is eid (r_election_id r)
  && registration_status_eqb (r_status r) PENDING.

Definition post_aprobar (en : env) (d : db) (req : admin_request) : response * db :=
  match getActiveElection d with
  | None => (Send 500 "No hay elección activa.", d)
  | Some active =>
      let id := params_id req in
      match req_session req with
      | Some (Session (Some adm)) =>
          (* UPDATE registrations SET status='APPROVED' ... RETURNING *)
          match find (pending_in (e_id active) id) (registrations d) with
          | None => (Redirect ("/admin/solicitudes/" ++ string_of_Z id), d)
          | Some rr =>
              let d1 :=
                with_registrations d
                  (map (fun r =>
                          if pending_in (e_id active) id r
                          then Registration (r_id r) (r_election_id r) (r_unit_id r)
                                            (r_email r) APPROVED (Some (sql_now en))
                                            (Some (admin_id adm))
                          else r)
                       (registrations d)) in
              let unit_id := r_unit_id rr in
              let d2 := revoke_active (e_id active) unit_id d1 in
              let tokenHash := hashToken en (drawn_token req) in
              match insert_token en d2 (e_id active) id unit_id tokenHash with
              | inl e => (Uncaught (code e), d2)
              | inr (tokenId, d3) =>
                  let d4 :=
                    audit d3 (Audit "REGISTRATION_APPROVED_TOKEN_ISSUED"
                                    (Some (admin_id adm)) (Some unit_id) (Some id)
                                    (Some tokenId) (Some (e_id active))
                                    [("issued_via", JStr "EMAIL")]) in
                  let d5 :=
                    audit d4 (mail_audit adm (e_id active) id unit_id tokenId false
                                         (mail req)) in
                  (Render "admin_link_issued", d5)
              end
          end
      | _ => (Uncaught "TypeError", d)
      end
  end.

Definition approved_in (eid id : Z) (r : registration_row) : bool :=
  (r_id r =? id) && election_is eid (r_election_id r)
  && registration_status_eqb (r_status r) APPROVED.

Definition post_reemitir (en : env) (d : db) (req : admin_request) : response * db :=
  match getActiveElection d with
  | None => (Send 500 "No hay elección activa.", d)
  | Some active =>
      let id := params_id req in
      match find (approved_in (e_id active) id) (registrations d) with
      | None => (Send 400 "Solo se reemite si está aprobado.", d)
      | Some reg =>
          let d1 := revoke_active (e_id active) (r_unit_id reg) d in
          let tokenHash := hashToken en (drawn_token req) in
          match insert_token en d1 (e_id active) (r_id reg) (r_unit_id reg) tokenHash with
          | inl e => (Uncaught (code e), d1)
          | inr (tokenId, d2) =>
              match req_session req with
              | Some (Session (Some adm)) =>
                  let d3 :=
                    audit d2 (Audit "TOKEN_REISSUED" (Some (admin_id adm))
                                    (Some (r_unit_id reg)) (Some (r_id reg))
                                    (Some tokenId) (Some (e_id active)) []) in
                  let d4 :=
                    audit d3 (mail_audit adm (e_id active) (r_id reg) (r_unit_id reg)
                                         tokenId true (mail req)) in
                  (Render "admin_link_issued", d4)
              | _ => (Uncaught "TypeError", d2)
              end
          end
      end
  end.

(** A route with one middleware in front of its handler. *)
Definition guarded (mw : option session -> middleware_result)
           (handler : env -> db -> admin_request -> response * db)
           (en : env) (d : db) (req : admin_request) : response * db :=
  match mw (req_session req) with
  | next => handler en d req
  | respond r => (r, d)
  end.

Definition route_aprobar := guarded requireAdmin post_aprobar.
Definition route_reemitir := guarded requireAdmin post_reemitir.

(* ================================================================== *)
(** * 6. A small election, used to run the handlers                    *)
(* ================================================================== *)

Module Scenario.

Definition env0 : env := Env "pepper" 1500 1500.
Definition election1 : election_row := Election 1 "Concejo 2026" 1000 2000 true.
Definition committee : option session :=
  Some (Session (Some (Admin 1 "comite@urbisol.pe" "admin"))).

(** One pending registration of unit 7, two council lists, two fiscal
    lists, nothing else. *)
Definition db0 : db :=
  Db [election1]
     [Registration 1 (Some 1) 7 (Some "vecino@urbisol.pe") PENDING None None]
     [] [1; 2] [1; 2] [] [] [] [].

(** The committee approves the registration: credential "tokA". *)
Definition db1 : db :=
  snd (route_aprobar env0 db0 (AdminRequest committee 1 "tokA" (Mailed true))).

(** It re-issues: credential "tokB". *)
Definition db2 : db :=
  snd (route_reemitir env0 db1 (AdminRequest committee 1 "tokB" (Mailed true))).

Definition council (token : string) (n : Z) : vote_request :=
  VoteRequest token (Int n) Missing (Some "10.0.0.1") (Some "Mozilla/5.0").
Definition fiscal (token : string) (n : Z) : vote_request :=
  VoteRequest token Missing (Int n) (Some "10.0.0.1") (Some "Mozilla/5.0").
Definition view (token : string) : vote_request :=
  VoteRequest token Missing Missing (Some "10.0.0.1") (Some "Mozilla/5.0").

Definition statuses (d : db) : list (Z * token_status) :=
  map (fun t => (t_id t, t_status t)) (vote_tokens d).

Definition chain_columns (b : ballot)
  : option Z * option string * option string :=
  (b_chain_position b, b_previous_hash b, b_vote_hash b).

(** A later election: unit 7 voted in election 1 (council and fiscal),
    election 2 is the active one and unit 7 holds an ACTIVE credential
    "tokC" for it. *)
Definition second_election : db :=
  Db [Election 1 "Concejo 2025" 10 20 false; Election 2 "Concejo 2026" 1000 2000 true]
     [Registration 1 (Some 1) 7 (Some "vecino@urbisol.pe") APPROVED (Some 5) (Some 1);
      Registration 2 (Some 2) 7 (Some "vecino@urbisol.pe") APPROVED (Some 900) (Some 1)]
     [Token 1 (Some 1) 1 7 (hashToken env0 "tokA") USED 6 (Some 16) "EMAIL";
      Token 2 (Some 2) 2 7 (hashToken env0 "tokC") ACTIVE 901 None "EMAIL"]
     [1; 2; 3; 4] [1; 2; 3; 4]
     [Ballot 1 (Some 1) 7 1 1 15 None None None None None]
     [Ballot 1 (Some 1) 7 2 1 16 None None None None None]
     [] [].

End Scenario.

(* ================================================================== *)
(** * 7. Notions the statements use                                    *)
(* ================================================================== *)

Import VerifyChain.

(** ** Credentials *)

(** The row of a credential once [mark_used] went over it. *)
Definition retired (en : env) (t : token_row) : token_row :=
  Token (t_id t) (t_election_id t) (t_registration_id t) (t_unit_id t)
        (t_token_hash t) USED (t_issued_at t) (Some (sql_now en)) (t_issued_via t).

(** A request gets as far as the credential when an election is active,
    the voting window is open and a choice was sent. *)
Definition reaches_credential (en : env) (d : db) (election : election_row)
           (choice : form_number) : Prop :=
  getActiveElection d = Some election
  /\ inWindow (js_now en) (e_vote_open_at election) (e_vote_close_at election) = true
  /\ choice <> Missing.

(** What issuing wrote into [vote_tokens]: the old rows, the ACTIVE ones of
    the unit revoked, and one new row. *)
Definition issued (en : env) (d : db) (req : admin_request) (active : election_row)
           (unit : Z) (d' : db) : Prop :=
  getActiveElection d = Some active
  /\ elections d' = elections d
  /\ votes d' = votes d /\ fiscal_votes d' = fiscal_votes d
  /\ vote_tokens d'
     = map (revoke_row (e_id active) unit) (vote_tokens d)
       ++ [Token (next_id t_id (vote_tokens d)) (Some (e_id active)) (params_id req) unit
                 (hashToken en (drawn_token req)) ACTIVE (sql_now en) None "EMAIL"].

(** ** Chains *)

(** One row comes before another in [ORDER BY chain_position ASC]. *)
Definition before (a b : ballot) : Prop :=
  position_leb (b_chain_position a) (b_chain_position b) = true.

Section Walk.

Variable payloadBuilder : ballot -> option string -> jsobject.

(** The digest the loop recomputes for a row. *)
Definition expectedHash (r : ballot) (prevHash : option string) : string :=
  sha256Hex (JSON_stringify (payloadBuilder r prevHash)).

(** [linked prev rows last]: starting with [prev] as previous digest,
    every row of [rows] stores the digest of its predecessor and the digest
    recomputed from its own fields; [last] is the digest the loop ends
    with. *)
Inductive linked : option string -> list ballot -> option string -> Prop :=
| linked_nil : forall prev, linked prev [] prev
| linked_cons : forall prev r rest last,
    b_previous_hash r = prev ->
    b_vote_hash r = Some (expectedHash r prev) ->
    linked (b_vote_hash r) rest last ->
    linked prev (r :: rest) last.

(** The value of [concatenated] after a loop that went through. *)
Fixpoint concat_hashes (rows : list ballot) : string :=
  match rows with
  | [] => EmptyString
  | r :: rest => (text_of (b_vote_hash r) ++ concat_hashes rest)%string
  end.

End Walk.

(** *** Rows with one column changed, and chains built by hand *)

Definition set_previous_hash (r : ballot) (x : option string) : ballot :=
  Ballot (b_id r) (b_election_id r) (b_unit_id r) (b_choice_id r) (b_token_id r)
         (b_cast_at r) (b_ip r) (b_user_agent r) (b_chain_position r) x (b_vote_hash r).
Definition set_vote_hash (r : ballot) (x : option string) : ballot :=
  Ballot (b_id r) (b_election_id r) (b_unit_id r) (b_choice_id r) (b_token_id r)
         (b_cast_at r) (b_ip r) (b_user_agent r) (b_chain_position r) (b_previous_hash r) x.

(** The row [r] made the successor of a row whose digest is [prev]. *)
Definition chained (pb : ballot -> option string -> jsobject) (prev : option string)
           (r : ballot) : ballot :=
  set_vote_hash (set_previous_hash r prev) (Some (expectedHash pb r prev)).

Module Chains.

(** Two council ballots of election 1 that link to each other, at the
    positions 2 and 5. *)
Definition gap_first : ballot :=
  Eval vm_compute in
    chained payload_votes (Some "GENESIS")
            (Ballot 1 (Some 1) 7 1 1 1772380801500 (Some "10.0.0.1") (Some "Mozilla/5.0")
                    (Some 2) None None).

Definition gap_second : ballot :=
  Eval vm_compute in
    chained payload_votes (b_vote_hash gap_first)
            (Ballot 2 (Some 1) 8 2 2 1772380862250 (Some "10.0.0.2") (Some "Mozilla/5.0")
                    (Some 5) None None).

Definition gapped : list ballot := [gap_second; gap_first].

Definition gapped_seal : seal_row :=
  Eval vm_compute in
    Seal 1 "COUNCIL" (sha256Hex (concat_hashes [gap_first; gap_second])) 2.

(** Three council ballots of election 1 at the positions 1, 2 and 3, and
    the seal over them. *)
Definition first : ballot :=
  Eval vm_compute in
    chained payload_votes (Some "GENESIS")
            (Ballot 1 (Some 1) 7 1 1 1772380801500 (Some "10.0.0.1") (Some "Mozilla/5.0")
                    (Some 1) None None).

Definition second : ballot :=
  Eval vm_compute in
    chained payload_votes (b_vote_hash first)
            (Ballot 2 (Some 1) 8 2 2 1772380862250 (Some "10.0.0.2") (Some "Mozilla/5.0")
                    (Some 2) None None).

Definition third : ballot :=
  Eval vm_compute in
    chained payload_votes (b_vote_hash second)
            (Ballot 3 (Some 1) 9 1 3 1772380923999 (Some "10.0.0.3") (Some "Mozilla/5.0")
                    (Some 3) None None).

Definition sound : list ballot := [first; second; third].

Definition sound_seal : seal_row :=
  Eval vm_compute in Seal 1 "COUNCIL" (sha256Hex (concat_hashes sound)) 3.

End Chains.



(* ================================================================== *)
(** * 8. More of the server                                            *)
(* ================================================================== *)


(** ** [POST /admin/elections/:id/activate] *)






(** ** Plan files: [randName], the upload storage and [GET /plan/:filename] *)

(** [crypto.randomBytes(n).toString("hex") + ext], the bytes drawn given
    as [random]. *)
Definition randName (random : list Z) (ext : string) : string :=
  (hex_of_bytes random ++ ext)%string.

Definition is_lower_hex (c : ascii) : bool :=
  let n := Z.of_N (N_of_ascii c) in
  ((48 <=? n) && (n <=? 57)) || ((97 <=? n) && (n <=? 102)).

(** [n] characters of [[a-f0-9]] at the head of a string, and what
    follows them. *)
Fixpoint hex_run (n : nat) (s : string) : option string :=
  match n with
  | O => Some s
  | S k =>
      match s with
      | String c rest => if is_lower_hex c then hex_run k rest else None
      | EmptyString => None
      end
  end.

(** [/^[a-f0-9]{48}\.pdf$/.test(fn)] *)
Definition plan_filename_ok (fn : string) : bool :=
  match hex_run 48 fn with
  | Some rest => String.eqb rest ".pdf"
  | None => false
  end.

(** The directory [UPLOAD_DIR] as the names of the files in it.  The
    storage of [multer] writes an accepted upload under
    [randName(".pdf")]. *)
Definition store_upload (files : list string) (random : list Z) : string * list string :=
  let filename := randName random ".pdf" in
  (filename, filename :: files).

(** What [GET /plan/:filename] answers: 404, or the file of that name. *)
Inductive plan_response :=
| NotFound
| SendFile (name : string).

Definition get_plan (files : list string) (filename : option string) : plan_response :=
  let fn := match filename with Some s => s | None => EmptyString end in
  if negb (plan_filename_ok fn) then NotFound
  else if negb (existsb (String.eqb fn) files) then NotFound
  else SendFile fn.

(** ** Notions for the further properties *)

(** The ACTIVE credentials of a unit in an election. *)
Definition active_credentials (d : db) (eid unit : Z) : list token_row :=
  filter (fun t => election_is eid (t_election_id t) && (t_unit_id t =? unit)
                   && token_status_eqb (t_status t) ACTIVE)
         (vote_tokens d).

(** The same request with another outcome of the mailer. *)
Definition with_mail (req : admin_request) (m : mail_outcome) : admin_request :=
  AdminRequest (req_session req) (params_id req) (drawn_token req) m.

(** The ballot and the audit row a committed cast writes. *)
Definition cast_audit (event key : string) (election : election_row) (vt : token_row)
           (n : Z) : audit_row :=
  Audit event None (Some (t_unit_id vt)) None (Some (t_id vt)) (Some (e_id election))
        [(key, JNum n)].


(** One council ballot per unit, one fiscal ballot per election and unit:
    what the two uniqueness constraints keep. *)
Definition council_keys (table : list ballot) : list Z := map b_unit_id table.
Definition fiscal_keys (table : list ballot) : list (option Z * Z) :=
  map (fun b => (b_election_id b, b_unit_id b)) table.

(** Every character of a string passes a test. *)
Fixpoint string_forallb (p : ascii -> bool) (s : string) : bool :=
  match s with
  | EmptyString => true
  | String c rest => p c && string_forallb p rest
  end.

(** A list of bytes. *)
Definition bytes (l : list Z) : Prop := Forall (fun b => 0 <= b < 256) l.

(** ** [GET /resultados/:electionId] *)

(** [candidates] with the columns the results query reads (sql/001,
    [election_id] added by sql/003); the store above keeps the keys
    only. *)
Record candidate_row := Candidate {
  c_id : Z;
  c_election_id : option Z;
  c_name : string;
  c_list_code : string;
  c_sort_order : Z
}.

(** [ORDER BY c.sort_order ASC]; rows with the same order keep their
    table order. *)
Fixpoint place_candidate (c : candidate_row) (sorted : list candidate_row)
  : list candidate_row :=
  match sorted with
  | [] => [c]
  | h :: t =>
      if c_sort_order h <=? c_sort_order c
      then h :: place_candidate c t
      else c :: h :: t
  end.

Definition order_by_sort_order (rows : list candidate_row) : list candidate_row :=
  fold_left (fun acc c => place_candidate c acc) rows [].

Record total_row := Total { tr_name : string; tr_list_code : string; tr_votes : Z }.

(** [COUNT(v.id)] of the rows [v] joined to the candidate [c]:
    [v.candidate_id=c.id AND v.election_id=$1]. *)
Definition joined_votes (table : list ballot) (electionId : Z) (c : candidate_row) : Z :=
  Z.of_nat (List.length
              (filter (fun v => (b_choice_id v =? c_id c)
                                && opt_Z_eqb (b_election_id v) (Some electionId))
                      table)).

(** [SELECT c.name, c.list_code, COUNT(v.id)::int AS votes FROM candidates c
     LEFT JOIN votes v ON ... WHERE c.election_id=$1 GROUP BY c.id
     ORDER BY c.sort_order ASC]: one group for each candidate of the
    election, [c.id] being the primary key. *)
Definition totals (cands : list candidate_row) (table : list ballot) (electionId : Z)
  : list total_row :=
  map (fun c => Total (c_name c) (c_list_code c) (joined_votes table electionId c))
      (order_by_sort_order
         (filter (fun c => opt_Z_eqb (c_election_id c) (Some electionId)) cands)).

(** The count of the rows of [votes WHERE election_id=$1]
    ([metrics.votes]). *)
Definition count_votes (table : list ballot) (electionId : Z) : Z :=
  Z.of_nat (List.length
              (filter (fun v => opt_Z_eqb (b_election_id v) (Some electionId)) table)).







(** The candidate table in full and the keys the store keeps of it. *)
Definition keys_of (cands : list candidate_row) (d : db) : Prop :=
  candidates d = map c_id cands.

(** Two lists for the scenarios: the first of campaign 1, the second left
    over from before the campaigns, its [election_id] NULL. *)
Definition two_lists : list candidate_row :=
  [Candidate 1 (Some 1) "Lista 1" "LISTA_1" 1; Candidate 2 None "Lista 2" "LISTA_2" 2].

(** ** The fields of the CSV exports ([escape] of [toCSV]) *)

(** A value of a row of an export, for the columns that are text, integer
    or NULL, and the text [String] makes of it, NULL read as the empty
    text. *)
Inductive cell :=
| CNull
| CInt (n : Z)
| CText (s : string).

Definition text_of_cell (v : cell) : string :=
  match v with
  | CNull => EmptyString
  | CInt n => string_of_Z n
  | CText s => s
  end.

(** [s.includes(c)] for a one-character [c]. *)
Fixpoint includes (c : ascii) (s : string) : bool :=
  match s with
  | EmptyString => false
  | String x rest => Ascii.eqb x c || includes c rest
  end.

(** [s.replaceAll] of every quote character by two of them. *)
Fixpoint double_quotes (s : string) : string :=
  match s with
  | EmptyString => EmptyString
  | String x rest =>
      if Ascii.eqb x dquote
      then String dquote (String dquote (double_quotes rest))
      else String x (double_quotes rest)
  end.

Definition newline : ascii := ascii_of_N 10.

Definition escape (v : cell) : string :=
  let s := text_of_cell v in
  if includes dquote s || includes ","%char s || includes newline s
  then String dquote (double_quotes s ++ String dquote EmptyString)
  else s.

(* ================================================================== *)
(** * 9. Properties                                                    *)
(* ================================================================== *)

(** ** The hash function *)


Example sha256_of_abc :
  sha256Hex "abc" = "ba7816bf8f01cfea414140de5dae2223b00361a396177a9cb410ff61f20015ad".
Proof. vm_compute. reflexivity. Qed.

Example sha256_of_two_blocks :
  sha256Hex "abcdbcdecdefdefgefghfghighijhijkijkljklmklmnlmnomnopnopq"
  = "248d6a61d20638b8e5c026930c3e6039a33ce45964ff2167f6ecedd419db06c1".
Proof. vm_compute. reflexivity. Qed.

(** ** Access checks *)

(** C9.  The admin-only check and the viewer-or-admin check are the same
    function of the request: each lets the request through exactly when
    [req.session?.admin?.id] is truthy, that is when the session carries an
    admin whose id is a non-zero number, and each redirects to the login
    page otherwise.  A route answers the same behind either of them, so the
    role stored in the session plays no part. *)
Theorem viewer_check_is_admin_check :
  forall s : option session,
    requireViewerOrAdmin s = requireAdmin s
    /\ (requireAdmin s = next <-> truthy (session_admin_id s) = true)
    /\ (requireAdmin s <> next <-> requireAdmin s = respond (Redirect "/admin/login"))
    /\ (forall handler en d req,
           guarded requireViewerOrAdmin handler en d req
           = guarded requireAdmin handler en d req)
    /\ (forall id email role1 role2,
           requireViewerOrAdmin (Some (Session (Some (Admin id email role1))))
           = requireAdmin (Some (Session (Some (Admin id email role2))))).
Proof.
  intro s.
  split; [reflexivity|].
  split.
  { unfold requireAdmin. destruct (truthy (session_admin_id s)); split; congruence. }
  split.
  { unfold requireAdmin. destruct (truthy (session_admin_id s)); split;
      intro H; try reflexivity; try congruence. }
  split; reflexivity.
Qed.

Lemma viewer_check_is_admin_check_witness :
  requireViewerOrAdmin Scenario.committee = requireAdmin Scenario.committee
  /\ requireAdmin Scenario.committee = next
  /\ requireAdmin (Some (Session (Some (Admin 1 "veedor@urbisol.pe" "viewer")))) = next
  /\ requireViewerOrAdmin (Some (Session None)) = respond (Redirect "/admin/login").
Proof.
  destruct (viewer_check_is_admin_check Scenario.committee) as (H1 & H2 & _).
  split; [exact H1|].
  split; [apply H2; reflexivity|].
  split; reflexivity.
Defined.

(** ** What a committed cast wrote *)

Lemma insert_with_inr :
  forall unique choices table choice mk rows,
    insert_with unique choices table choice mk = inr rows ->
    exists n, choice = Int n
              /\ existsb (same_key unique (mk n)) table = false
              /\ existsb (Z.eqb (b_choice_id (mk n))) choices = true
              /\ rows = table ++ [mk n].
Proof.
  intros unique choices table choice mk rows H.
  destruct choice as [| |n]; simpl in H; try discriminate.
  exists n. unfold insert_ballot in H.
  destruct (existsb (same_key unique (mk n)) table); [discriminate|].
  destruct (existsb (Z.eqb (b_choice_id (mk n))) choices); simpl in H; [|discriminate].
  inversion H. auto.
Qed.

Lemma status_eqb_ACTIVE :
  forall s, token_status_eqb s ACTIVE = true <-> s = ACTIVE.
Proof. intro s. destruct s; simpl; split; congruence. Qed.

Lemma post_votar_tx_commit :
  forall en d election req vt d1,
    post_votar_tx en d election req = inr (COMMIT vt d1) ->
    select_token d (hashToken en (params_token req)) (e_id election) = Some vt
    /\ t_status vt = ACTIVE
    /\ exists n, body_candidate_id req = Int n
                 /\ d1 = with_votes d (votes d ++ [new_ballot en (votes d) (e_id election) vt n req]).
Proof.
  intros en d election req vt d1 H. unfold post_votar_tx in H.
  destruct (select_token d _ _) as [vt0|]; [|discriminate].
  destruct (token_status_eqb (t_status vt0) ACTIVE) eqn:Hs; simpl in H; [|discriminate].
  destruct (insert_with _ _ _ _ _) as [e|rows] eqn:Hi; [discriminate|].
  inversion H; subst. apply insert_with_inr in Hi as (n & Hn & _ & _ & Hrows).
  split; [reflexivity|]. split; [apply status_eqb_ACTIVE; exact Hs|].
  exists n. subst. auto.
Qed.

Lemma post_fiscales_tx_commit :
  forall en d election req vt hc d2,
    post_fiscales_tx en d election req = inr (COMMIT (vt, hc) d2) ->
    select_token d (hashToken en (params_token req)) (e_id election) = Some vt
    /\ t_status vt = ACTIVE
    /\ hc = has_ballot (votes d) (e_id election) (t_unit_id vt)
    /\ exists n, body_fiscal_list_id req = Int n
                 /\ let d1 := with_fiscal_votes d
                       (fiscal_votes d ++ [new_ballot en (fiscal_votes d) (e_id election) vt n req]) in
                    d2 = if hc then mark_used en (t_id vt) d1 else d1.
Proof.
  intros en d election req vt hc d2 H. unfold post_fiscales_tx in H.
  destruct (select_token d _ _) as [vt0|]; [|discriminate].
  destruct (token_status_eqb (t_status vt0) ACTIVE) eqn:Hs; simpl in H; [|discriminate].
  destruct (insert_with _ _ _ _ _) as [e|rows] eqn:Hi; [discriminate|].
  inversion H; subst. apply insert_with_inr in Hi as (n & Hn & _ & _ & Hrows).
  split; [reflexivity|]. split; [apply status_eqb_ACTIVE; exact Hs|].
  split; [reflexivity|].
  exists n. subst. auto.
Qed.

(** Whatever the request, the ballot a committed cast appended has no
    chain position, no previous digest and no digest. *)
Lemma committed_ballot_has_no_chain :
  forall en d election req,
    (forall vt d1,
        post_votar_tx en d election req = inr (COMMIT vt d1) ->
        exists b, votes d1 = votes d ++ [b]
                  /\ Scenario.chain_columns b = (None, None, None))
    /\ (forall vt hc d1,
           post_fiscales_tx en d election req = inr (COMMIT (vt, hc) d1) ->
           exists b, fiscal_votes d1 = fiscal_votes d ++ [b]
                     /\ Scenario.chain_columns b = (None, None, None)).
Proof.
  intros en d election req. split.
  - intros vt d1 H. apply post_votar_tx_commit in H as (_ & _ & n & _ & ->).
    eexists. split; reflexivity.
  - intros vt hc d1 H. apply post_fiscales_tx_commit in H as (_ & _ & _ & n & _ & ->).
    eexists. destruct hc; split; reflexivity.
Qed.

(** C1.  The first council cast and the first fiscal cast of an election
    both succeed, and the rows they persist carry NULL in the three chain
    columns, where the claim has position 1, previous digest "GENESIS" and
    the SHA-256 of the canonical payload; the verifier run on the result
    stops at the first row with a broken chain at position null. *)
Theorem cast_persists_no_chain_link :
  let r1 := post_votar Scenario.env0 Scenario.db1 (Scenario.council "tokA" 1) in
  let r2 := post_fiscales Scenario.env0 (snd r1) (Scenario.fiscal "tokA" 2) in
  fst r1 = Redirect "/votar/tokA"
  /\ fst r2 = Render "vote_done"
  /\ map Scenario.chain_columns (votes (snd r2)) = [(None, None, None)]
  /\ map Scenario.chain_columns (fiscal_votes (snd r2)) = [(None, None, None)]
  /\ map Scenario.chain_columns (votes (snd r2)) <> [(Some 1, Some "GENESIS",
         Some (sha256Hex (JSON_stringify
                 (VerifyChain.payload_votes
                    (Ballot 1 (Some 1) 7 1 1 1500 None None (Some 1) None None)
                    (Some "GENESIS")))))]
  /\ VerifyChain.main (snd r2) 1 = VerifyChain.Failed (VerifyChain.ChainBroken None).
Proof.
  vm_compute. repeat split; try reflexivity. discriminate.
Qed.

(** ** One ballot per election, category and unit *)

Lemma election_is_true :
  forall eid o, election_is eid o = true <-> o = Some eid.
Proof.
  intros eid [x|]; simpl; split; intro H; try discriminate.
  - apply Z.eqb_eq in H. congruence.
  - inversion H. apply Z.eqb_refl.
Qed.

(** Under either constraint a table that holds a ballot of a unit for an
    election refuses a second one. *)
Lemma second_ballot_refused :
  forall cols choices table row eid,
    cols = votes_unique \/ cols = fiscal_votes_unique ->
    b_election_id row = Some eid ->
    has_ballot table eid (b_unit_id row) = true ->
    insert_ballot cols choices table row = inl unique_violation.
Proof.
  intros cols choices table row eid Hc He Hb.
  unfold has_ballot in Hb. apply existsb_exists in Hb as (b & Hin & Hb).
  apply andb_true_iff in Hb as (Hbe & Hbu).
  apply election_is_true in Hbe. apply Z.eqb_eq in Hbu.
  unfold insert_ballot.
  assert (Hex : existsb (same_key cols row) table = true).
  { apply existsb_exists. exists b. split; [exact Hin|].
    destruct Hc as [-> | ->]; unfold same_key; simpl; rewrite ?He, ?Hbe, Hbu, ?Z.eqb_refl;
      reflexivity. }
  rewrite Hex. reflexivity.
Qed.

(** C2.  The constraint of [votes] is on [unit_id] alone, that of
    [fiscal_votes] on [(election_id, unit_id)].  With unit 7 having voted in
    election 1 only, its council cast in election 2 is refused by the
    constraint although no council ballot of unit 7 exists for election 2,
    while its fiscal cast in the same state is accepted. *)
Theorem council_constraint_ignores_election :
  let d := Scenario.second_election in
  votes_unique = [col_unit_id]
  /\ fiscal_votes_unique = [col_election_id; col_unit_id]
  /\ has_ballot (votes d) 2 7 = false
  /\ has_ballot (fiscal_votes d) 2 7 = false
  /\ post_votar_tx Scenario.env0 d (Election 2 "Concejo 2026" 1000 2000 true)
                   (Scenario.council "tokC" 3) = inl unique_violation
  /\ post_votar Scenario.env0 d (Scenario.council "tokC" 3) = (Render "vote_used", d)
  /\ fst (post_fiscales Scenario.env0 d (Scenario.fiscal "tokC" 3)) = Redirect "/votar/tokC"
  /\ has_ballot (fiscal_votes (snd (post_fiscales Scenario.env0 d (Scenario.fiscal "tokC" 3))))
                2 7 = true.
Proof.
  vm_compute. repeat split; reflexivity.
Qed.

(** ** Retiring the credential *)

Lemma select_token_In :
  forall d h eid vt,
    select_token d h eid = Some vt ->
    In vt (vote_tokens d) /\ t_token_hash vt = h /\ t_election_id vt = Some eid.
Proof.
  intros d h eid vt H. unfold select_token in H.
  apply find_some in H as (Hin & Hc). apply andb_true_iff in Hc as (Hh & He).
  apply String.eqb_eq in Hh. apply election_is_true in He. auto.
Qed.




Lemma mark_used_spec :
  forall en id d,
    (forall t, In t (vote_tokens d) -> t_id t = id ->
               In (retired en t) (vote_tokens (mark_used en id d)))
    /\ (forall t, In t (vote_tokens (mark_used en id d)) -> t_id t = id ->
                  t_status t = USED /\ t_used_at t = Some (sql_now en))
    /\ votes (mark_used en id d) = votes d
    /\ fiscal_votes (mark_used en id d) = fiscal_votes d.
Proof.
  intros en id d. unfold mark_used. simpl. repeat split; try reflexivity.
  - intros t Hin Hid. apply in_map_iff. exists t. split; [|exact Hin].
    apply Z.eqb_eq in Hid. rewrite Hid. reflexivity.
  - apply in_map_iff in H as (t0 & Ht & _).
    destruct (t_id t0 =? id) eqn:E; subst t; [reflexivity|].
    apply Z.eqb_neq in E. contradiction.
  - apply in_map_iff in H as (t0 & Ht & _).
    destruct (t_id t0 =? id) eqn:E; subst t; [reflexivity|].
    apply Z.eqb_neq in E. contradiction.
Qed.




(** ** The verifier *)


Lemma opt_string_eqb_eq :
  forall a b, opt_string_eqb a b = true <-> a = b.
Proof.
  intros [x|] [y|]; simpl; split; intro H; try discriminate; try reflexivity.
  - apply String.eqb_eq in H. congruence.
  - inversion H. apply String.eqb_refl.
Qed.

Lemma opt_string_eqb_neq :
  forall a b, opt_string_eqb a b = false <-> a <> b.
Proof.
  intros a b. split.
  - intros H E. apply opt_string_eqb_eq in E. congruence.
  - intro H. destruct (opt_string_eqb a b) eqn:E; [|reflexivity].
    apply opt_string_eqb_eq in E. contradiction.
Qed.

(** *** The rows are walked in position order *)


Lemma position_leb_total :
  forall a b, position_leb a b = false -> position_leb b a = true.
Proof.
  intros [x|] [y|]; simpl; intro H; try discriminate; try reflexivity.
  apply Z.leb_gt in H. apply Z.leb_le. lia.
Qed.

Lemma position_leb_trans :
  forall a b c, position_leb a b = true -> position_leb b c = true -> position_leb a c = true.
Proof.
  intros [x|] [y|] [z|]; simpl; intros H1 H2; try discriminate; try reflexivity.
  apply Z.leb_le in H1, H2. apply Z.leb_le. lia.
Qed.

Lemma place_perm : forall r l, Permutation (r :: l) (place r l).
Proof.
  intros r l. induction l as [|h t IH]; simpl.
  - apply Permutation_refl.
  - destruct (position_leb (b_chain_position h) (b_chain_position r)).
    + eapply perm_trans; [apply perm_swap|]. apply perm_skip. exact IH.
    + apply Permutation_refl.
Qed.

Lemma place_sorted :
  forall r l, StronglySorted before l -> StronglySorted before (place r l).
Proof.
  intros r l Hs. induction Hs as [|h t Hs IH Hall]; simpl.
  - constructor; constructor.
  - destruct (position_leb (b_chain_position h) (b_chain_position r)) eqn:E.
    + constructor; [exact IH|].
      apply (Permutation_Forall (place_perm r t)). constructor; assumption.
    + apply position_leb_total in E.
      constructor; [constructor; assumption|].
      constructor; [exact E|].
      eapply Forall_impl; [|exact Hall].
      intros x Hx. unfold before in *. eapply position_leb_trans; eassumption.
Qed.

Lemma order_by_chain_position_spec :
  forall rows,
    Permutation rows (order_by_chain_position rows)
    /\ StronglySorted before (order_by_chain_position rows).
Proof.
  intro rows. unfold order_by_chain_position.
  assert (G : forall acc,
             StronglySorted before acc ->
             Permutation (acc ++ rows) (fold_left (fun a r => place r a) rows acc)
             /\ StronglySorted before (fold_left (fun a r => place r a) rows acc)).
  { induction rows as [|r rest IH]; intros acc Hacc; simpl.
    - rewrite app_nil_r. split; [apply Permutation_refl|exact Hacc].
    - destruct (IH (place r acc) (place_sorted r acc Hacc)) as (Hp & Hs).
      split; [|exact Hs].
      eapply perm_trans; [|exact Hp].
      apply Permutation_app_tail with (tl := rest) in Hp as _.
      eapply perm_trans; [apply Permutation_sym, Permutation_middle|].
      change (r :: acc ++ rest) with ((r :: acc) ++ rest).
      apply Permutation_app_tail. apply place_perm. }
  destruct (G [] (SSorted_nil _)) as (Hp & Hs). split; assumption.
Qed.

(** *** What the loop accepts and where it stops *)


Lemma append_assoc :
  forall a b c : string, ((a ++ b) ++ c = a ++ (b ++ c))%string.
Proof.
  induction a as [|x a IH]; intros b c; simpl; [reflexivity|]. rewrite IH. reflexivity.
Qed.

Lemma append_nil_r : forall a : string, (a ++ "" = a)%string.
Proof.
  induction a as [|x a IH]; simpl; [reflexivity|]. rewrite IH. reflexivity.
Qed.


Lemma list_of_append :
  forall a b : string,
    list_ascii_of_string (a ++ b) = list_ascii_of_string a ++ list_ascii_of_string b.
Proof.
  induction a as [|x a IH]; intro b; simpl; [reflexivity|]. rewrite IH. reflexivity.
Qed.

Lemma append_inv_tail :
  forall a b c : string, (a ++ c = b ++ c)%string -> a = b.
Proof.
  intros a b c H.
  apply (f_equal list_ascii_of_string) in H. rewrite !list_of_append in H.
  apply app_inv_tail in H.
  rewrite <- (string_of_list_ascii_of_string a), <- (string_of_list_ascii_of_string b).
  rewrite H. reflexivity.
Qed.

Section WalkFacts.

Variable pb : ballot -> option string -> jsobject.

Lemma linked_functional :
  forall rows prev last1 last2,
    linked pb prev rows last1 -> linked pb prev rows last2 -> last1 = last2.
Proof.
  induction rows as [|r rest IH]; intros prev l1 l2 H1 H2;
    inversion H1; inversion H2; subst; [reflexivity|eauto].
Qed.

Lemma linked_app :
  forall l1 prev mid l2 last,
    linked pb prev l1 mid -> linked pb mid l2 last -> linked pb prev (l1 ++ l2) last.
Proof.
  induction l1 as [|r rest IH]; intros prev mid l2 last H1 H2; inversion H1; subst; simpl.
  - exact H2.
  - econstructor; eauto.
Qed.

Lemma linked_split :
  forall l1 prev l2 last,
    linked pb prev (l1 ++ l2) last ->
    exists mid, linked pb prev l1 mid /\ linked pb mid l2 last.
Proof.
  induction l1 as [|r rest IH]; intros prev l2 last H; simpl in H.
  - exists prev. split; [constructor|exact H].
  - inversion H; subst. destruct (IH _ _ _ H6) as (mid & Ha & Hb).
    exists mid. split; [econstructor; eauto|exact Hb].
Qed.

Lemma walk_cons :
  forall r rest prev acc,
    walk pb (r :: rest) prev acc
    = if negb (opt_string_eqb (b_previous_hash r) prev)
      then inl (ChainBroken (b_chain_position r))
      else if negb (opt_string_eqb (Some (expectedHash pb r prev)) (b_vote_hash r))
           then inl (InvalidHash (b_chain_position r))
           else walk pb rest (b_vote_hash r) (acc ++ text_of (b_vote_hash r))%string.
Proof. reflexivity. Qed.

Lemma walk_cons_linked :
  forall r rest prev acc,
    b_previous_hash r = prev ->
    b_vote_hash r = Some (expectedHash pb r prev) ->
    walk pb (r :: rest) prev acc
    = walk pb rest (b_vote_hash r) (acc ++ text_of (b_vote_hash r))%string.
Proof.
  intros r rest prev acc H1 H2. rewrite walk_cons.
  rewrite (proj2 (opt_string_eqb_eq _ _) H1).
  rewrite (proj2 (opt_string_eqb_eq _ _) (eq_sym H2)). reflexivity.
Qed.

(** A chain that is linked goes through the loop. *)
Lemma walk_linked :
  forall rows prev last acc,
    linked pb prev rows last ->
    walk pb rows prev acc = inr (acc ++ concat_hashes rows)%string.
Proof.
  intros rows prev last acc H. revert acc.
  induction H as [prev|prev r rest last H1 H2 H3 IH]; intro acc.
  - simpl. rewrite append_nil_r. reflexivity.
  - rewrite (walk_cons_linked r rest prev acc H1 H2), IH.
    simpl. rewrite append_assoc. reflexivity.
Qed.


(** Every outcome of the loop, with its cause. *)
Lemma walk_spec :
  forall rows prev acc,
    match walk pb rows prev acc with
    | inr c => (exists last, linked pb prev rows last)
               /\ c = (acc ++ concat_hashes rows)%string
    | inl (ChainBroken p) =>
        exists l1 r l2 mid,
          rows = l1 ++ r :: l2 /\ linked pb prev l1 mid
          /\ b_previous_hash r <> mid /\ p = b_chain_position r
    | inl (InvalidHash p) =>
        exists l1 r l2 mid,
          rows = l1 ++ r :: l2 /\ linked pb prev l1 mid
          /\ b_previous_hash r = mid
          /\ b_vote_hash r <> Some (expectedHash pb r mid) /\ p = b_chain_position r
    | inl SealMismatch => False
    end.
Proof.
  induction rows as [|r rest IH]; intros prev acc.
  - simpl. split; [exists prev; constructor|]. rewrite append_nil_r. reflexivity.
  - rewrite walk_cons.
    destruct (opt_string_eqb (b_previous_hash r) prev) eqn:E1;
      [destruct (opt_string_eqb (Some (expectedHash pb r prev)) (b_vote_hash r)) eqn:E2|];
      unfold negb.
    + apply opt_string_eqb_eq in E1. apply opt_string_eqb_eq in E2. symmetry in E2.
      specialize (IH (b_vote_hash r) (acc ++ text_of (b_vote_hash r))%string).
      destruct (walk pb rest (b_vote_hash r) _) as [[p|p|]|c].
      * destruct IH as (l1 & x & l2 & mid & -> & Hl & Hb & ->).
        exists (r :: l1), x, l2, mid. repeat split; auto.
        econstructor; eauto.
      * destruct IH as (l1 & x & l2 & mid & -> & Hl & Hb & Hh & ->).
        exists (r :: l1), x, l2, mid. repeat split; auto.
        econstructor; eauto.
      * exact IH.
      * destruct IH as ((last & Hl) & ->). split.
        -- exists last. econstructor; eauto.
        -- simpl. apply append_assoc.
    + apply opt_string_eqb_eq in E1. apply opt_string_eqb_neq in E2.
      exists [], r, rest, prev.
      split; [reflexivity|]. split; [constructor|]. split; [exact E1|].
      split; [congruence|reflexivity].
    + apply opt_string_eqb_neq in E1.
      exists [], r, rest, prev.
      split; [reflexivity|]. split; [constructor|]. split; [exact E1|reflexivity].
Qed.

End WalkFacts.


(** *** [verifyTable] *)

Lemma select_chain_spec :
  forall table eid,
    Permutation (filter (fun r => opt_Z_eqb (b_election_id r) (Some eid)) table)
                (select_chain table eid)
    /\ StronglySorted before (select_chain table eid).
Proof.
  intros table eid. unfold select_chain. apply order_by_chain_position_spec.
Qed.

(** C4, the claim refuted.  Two ballots at the positions 2 and 5, each
    storing the digest of its predecessor ("GENESIS" for the first) and its
    own recomputed digest, with the seal over the two: the verifier walks
    them in that order and reports the chain whole and the seal matching.
    Neither the start at position 2 nor the gap between 2 and 5 is
    reported. *)
Lemma gapped_chain_passes_verification :
  map b_chain_position (select_chain Chains.gapped 1) = [Some 2; Some 5]
  /\ verifyTable Chains.gapped payload_votes "COUNCIL" [Chains.gapped_seal] 1
     = inr (SealMatches, s_global_hash Chains.gapped_seal)
  /\ main (Db [] [] [] [] [] Chains.gapped [] [Chains.gapped_seal] []) 1
     = Consistent (SealMatches, s_global_hash Chains.gapped_seal)
                  (NoSeal, sha256Hex "").
Proof.
  vm_compute. repeat split; reflexivity.
Qed.

(** C4, amended.  [verifyTable] takes the rows of the election sorted by
    stored position (NULL last) and walks them once.  For each row it
    checks that the stored previous digest is the digest of the row before
    it in that order ("GENESIS" for the first row, whatever its position),
    then that the digest recomputed from the stored fields is the stored
    one.  It stops at the first row that fails, reporting a broken chain,
    respectively an invalid hash, with the position stored in that row.  A
    chain that goes through is folded into the global hash, the SHA-256 of
    the concatenated digests; a stored seal that differs is reported as the
    seal mismatch, apart from the two others.  Positions serve to order the
    rows and enter the digest; no check is made that they start at 1 or
    follow each other without gap, and no outcome names a gap. *)
Theorem verifyTable_reports_first_failing_row :
  forall table pb kind seals eid,
    let rows := select_chain table eid in
    let chain := exists last, linked pb (Some "GENESIS") rows last in
    (Permutation (filter (fun r => opt_Z_eqb (b_election_id r) (Some eid)) table) rows
     /\ StronglySorted before rows)
    /\ match verifyTable table pb kind seals eid with
       | inl (ChainBroken p) =>
           exists l1 r l2 mid,
             rows = l1 ++ r :: l2 /\ linked pb (Some "GENESIS") l1 mid
             /\ b_previous_hash r <> mid /\ p = b_chain_position r
       | inl (InvalidHash p) =>
           exists l1 r l2 mid,
             rows = l1 ++ r :: l2 /\ linked pb (Some "GENESIS") l1 mid
             /\ b_previous_hash r = mid
             /\ b_vote_hash r <> Some (expectedHash pb r mid)
             /\ p = b_chain_position r
       | inl SealMismatch =>
           chain /\ exists stored, select_seal seals eid kind = Some stored
                                   /\ stored <> sha256Hex (concat_hashes rows)
       | inr (NoSeal, g) =>
           chain /\ select_seal seals eid kind = None
           /\ g = sha256Hex (concat_hashes rows)
       | inr (SealMatches, g) =>
           chain /\ select_seal seals eid kind = Some g
           /\ g = sha256Hex (concat_hashes rows)
       end
    /\ (chain ->
        verifyTable table pb kind seals eid
        = match select_seal seals eid kind with
          | None => inr (NoSeal, sha256Hex (concat_hashes rows))
          | Some stored =>
              if String.eqb stored (sha256Hex (concat_hashes rows))
              then inr (SealMatches, sha256Hex (concat_hashes rows))
              else inl SealMismatch
          end).
Proof.
  intros table pb kind seals eid rows chain.
  split; [apply select_chain_spec|].
  unfold verifyTable. fold rows. subst chain.
  generalize (select_seal seals eid kind) as seal.
  clearbody rows. intro seal.
  split.
  - pose proof (walk_spec pb rows (Some "GENESIS") EmptyString) as W.
    destruct (walk pb rows (Some "GENESIS") "") as [[p|p|]|c];
      [exact W | exact W | destruct W |].
    destruct W as (Hl & Hc). change (c = concat_hashes rows) in Hc. subst c.
    destruct seal as [stored|]; [|auto].
    destruct (String.eqb stored (sha256Hex (concat_hashes rows))) eqn:E; unfold negb.
    + apply String.eqb_eq in E. subst stored. auto.
    + apply String.eqb_neq in E. split; [exact Hl|]. exists stored. auto.
  - intros (last & Hl).
    rewrite (walk_linked pb rows _ last EmptyString Hl).
    change ("" ++ concat_hashes rows)%string with (concat_hashes rows).
    destruct seal as [stored|]; [|reflexivity].
    destruct (String.eqb stored (sha256Hex (concat_hashes rows))); reflexivity.
Qed.

Lemma linked_sound_chain :
  linked payload_votes (Some "GENESIS") Chains.sound (b_vote_hash Chains.third).
Proof.
  unfold Chains.sound.
  apply linked_cons; [vm_compute; reflexivity | vm_compute; reflexivity |].
  apply linked_cons; [vm_compute; reflexivity | vm_compute; reflexivity |].
  apply linked_cons; [vm_compute; reflexivity | vm_compute; reflexivity |].
  apply linked_nil.
Qed.

Lemma select_sound_chain :
  select_chain [Chains.third; Chains.first; Chains.second] 1 = Chains.sound.
Proof. vm_compute. reflexivity. Qed.

Lemma verifyTable_reports_first_failing_row_witness :
  verifyTable [Chains.third; Chains.first; Chains.second] payload_votes "COUNCIL"
              [Chains.sound_seal] 1
  = inr (SealMatches, s_global_hash Chains.sound_seal).
Proof.
  pose proof (verifyTable_reports_first_failing_row
                [Chains.third; Chains.first; Chains.second]
                payload_votes "COUNCIL" [Chains.sound_seal] 1) as H.
  cbv zeta in H. destruct H as (_ & _ & H).
  assert (C : exists last,
             linked payload_votes (Some "GENESIS")
                    (select_chain [Chains.third; Chains.first; Chains.second] 1) last).
  { exists (b_vote_hash Chains.third).
    rewrite select_sound_chain. exact linked_sound_chain. }
  pose proof (H C) as E. vm_compute in E. vm_compute. exact E.
Defined.

(** ** Tampering with one stored row *)










Lemma verifyTable_passed :
  forall table pb kind seals eid rep g,
    verifyTable table pb kind seals eid = inr (rep, g) ->
    (exists last, linked pb (Some "GENESIS") (select_chain table eid) last)
    /\ g = sha256Hex (concat_hashes (select_chain table eid)).
Proof.
  intros table pb kind seals eid rep g H. unfold verifyTable in H.
  pose proof (walk_spec pb (select_chain table eid) (Some "GENESIS") EmptyString) as W.
  destruct (walk pb (select_chain table eid) (Some "GENESIS") "") as [e|c]; [discriminate|].
  destruct W as (Hl & Hc). change (c = concat_hashes (select_chain table eid)) in Hc.
  subst c. split; [exact Hl|].
  destruct (select_seal seals eid kind) as [stored|].
  - destruct (negb (String.eqb stored _)); [discriminate|]. inversion H. reflexivity.
  - inversion H. reflexivity.
Qed.





(** ** Casts that are refused *)


Lemma status_eqb_not_ACTIVE :
  forall s, s <> ACTIVE -> token_status_eqb s ACTIVE = false.
Proof. intros [] H; simpl; congruence. Qed.

Lemma post_votar_body :
  forall en d election req,
    reaches_credential en d election (body_candidate_id req) ->
    post_votar en d req
    = match post_votar_tx en d election req with
      | inr (ROLLBACK r) => (r, d)
      | inr (COMMIT vt d1) =>
          (Redirect ("/votar/" ++ params_token req),
           audit d1 (Audit "VOTE_CAST" None (Some (t_unit_id vt)) None
                           (Some (t_id vt)) (Some (e_id election))
                           (choice_meta "candidate_id" (body_candidate_id req))))
      | inl e =>
          if String.eqb (code e) "23505" then (Render "vote_used", d)
          else (Send 500 "Error registrando voto.", d)
      end.
Proof.
  intros en d election req (Ha & Hw & Hc). unfold post_votar. rewrite Ha, Hw.
  destruct (body_candidate_id req); [contradiction| |]; reflexivity.
Qed.

Lemma post_fiscales_body :
  forall en d election req,
    reaches_credential en d election (body_fiscal_list_id req) ->
    post_fiscales en d req
    = match post_fiscales_tx en d election req with
      | inr (ROLLBACK r) => (r, d)
      | inr (COMMIT (vt, hasCouncil) d2) =>
          let d3 :=
            audit d2 (Audit "FISCAL_VOTE_CAST" None (Some (t_unit_id vt)) None
                            (Some (t_id vt)) (Some (e_id election))
                            (choice_meta "fiscal_list_id" (body_fiscal_list_id req))) in
          if negb hasCouncil then (Redirect ("/votar/" ++ params_token req), d3)
          else (Render "vote_done", d3)
      | inl e =>
          if String.eqb (code e) "23505"
          then (Redirect ("/votar/" ++ params_token req), d)
          else (Send 500 "Error registrando voto fiscal.", d)
      end.
Proof.
  intros en d election req (Ha & Hw & Hc). unfold post_fiscales. rewrite Ha, Hw.
  destruct (body_fiscal_list_id req); [contradiction| |]; reflexivity.
Qed.

(** The four ways a cast is turned away at the credential or at the
    constraint, for each of the two handlers. *)
Lemma post_votar_refusals :
  forall en d election req,
    reaches_credential en d election (body_candidate_id req) ->
    (select_token d (hashToken en (params_token req)) (e_id election) = None ->
     post_votar en d req = (Send 404 "Enlace inválido.", d))
    /\ (forall vt,
           select_token d (hashToken en (params_token req)) (e_id election) = Some vt ->
           t_status vt <> ACTIVE ->
           post_votar en d req = (Render "vote_used", d))
    /\ (forall vt n,
           select_token d (hashToken en (params_token req)) (e_id election) = Some vt ->
           t_status vt = ACTIVE ->
           body_candidate_id req = Int n ->
           has_ballot (votes d) (e_id election) (t_unit_id vt) = true ->
           post_votar_tx en d election req = inl unique_violation
           /\ post_votar en d req = (Render "vote_used", d)).
Proof.
  intros en d election req Hr. rewrite (post_votar_body en d election req Hr).
  unfold post_votar_tx. split; [|split].
  - intro Hs. rewrite Hs. reflexivity.
  - intros vt Hs Hn. rewrite Hs, (status_eqb_not_ACTIVE _ Hn). reflexivity.
  - intros vt n Hs Ha Hb Hv. rewrite Hs, Ha, Hb. simpl.
    rewrite (second_ballot_refused votes_unique (candidates d) (votes d)
               (new_ballot en (votes d) (e_id election) vt n req) (e_id election));
      auto.
Qed.

Lemma post_fiscales_refusals :
  forall en d election req,
    reaches_credential en d election (body_fiscal_list_id req) ->
    (select_token d (hashToken en (params_token req)) (e_id election) = None ->
     post_fiscales en d req = (Send 404 "Enlace inválido.", d))
    /\ (forall vt,
           select_token d (hashToken en (params_token req)) (e_id election) = Some vt ->
           t_status vt <> ACTIVE ->
           post_fiscales en d req = (Render "vote_used", d))
    /\ (forall vt n,
           select_token d (hashToken en (params_token req)) (e_id election) = Some vt ->
           t_status vt = ACTIVE ->
           body_fiscal_list_id req = Int n ->
           has_ballot (fiscal_votes d) (e_id election) (t_unit_id vt) = true ->
           post_fiscales_tx en d election req = inl unique_violation
           /\ post_fiscales en d req = (Redirect ("/votar/" ++ params_token req), d)).
Proof.
  intros en d election req Hr. rewrite (post_fiscales_body en d election req Hr).
  unfold post_fiscales_tx. split; [|split].
  - intro Hs. rewrite Hs. reflexivity.
  - intros vt Hs Hn. rewrite Hs, (status_eqb_not_ACTIVE _ Hn). reflexivity.
  - intros vt n Hs Ha Hb Hv. rewrite Hs, Ha, Hb. simpl.
    rewrite (second_ballot_refused fiscal_votes_unique (fiscal_lists d) (fiscal_votes d)
               (new_ballot en (fiscal_votes d) (e_id election) vt n req) (e_id election));
      auto.
Qed.




(** ** Unknown and consumed credentials *)

(** C7, the claim refuted.  With "tokA" revoked by the re-issue, a cast
    with a secret nobody was given is answered 404 "Enlace inválido." and a
    cast with "tokA" gets the already-voted page: the two answers
    differ. *)
Lemma unknown_and_revoked_answers_differ :
  Scenario.statuses Scenario.db2 = [(1, REVOKED); (2, ACTIVE)]
  /\ post_votar Scenario.env0 Scenario.db2 (Scenario.council "nobody" 1)
     = (Send 404 "Enlace inválido.", Scenario.db2)
  /\ post_votar Scenario.env0 Scenario.db2 (Scenario.council "tokA" 1)
     = (Render "vote_used", Scenario.db2)
  /\ fst (post_votar Scenario.env0 Scenario.db2 (Scenario.council "nobody" 1))
     <> fst (post_votar Scenario.env0 Scenario.db2 (Scenario.council "tokA" 1)).
Proof.
  vm_compute. repeat split; try reflexivity. discriminate.
Qed.

(** C7, amended.  For a cast that gets as far as the credential, from
    either handler: a secret whose hash is in no credential of the active
    election is answered with status 404 and the text "Enlace inválido.";
    a secret whose credential is found in a state other than ACTIVE gets
    the already-voted page.  Neither writes anything, and the two answers
    are different. *)
Theorem unknown_and_consumed_answers :
  forall en d election req,
    (reaches_credential en d election (body_candidate_id req) ->
     (select_token d (hashToken en (params_token req)) (e_id election) = None ->
      post_votar en d req = (Send 404 "Enlace inválido.", d))
     /\ (forall vt,
            select_token d (hashToken en (params_token req)) (e_id election) = Some vt ->
            t_status vt <> ACTIVE ->
            post_votar en d req = (Render "vote_used", d)))
    /\ (reaches_credential en d election (body_fiscal_list_id req) ->
        (select_token d (hashToken en (params_token req)) (e_id election) = None ->
         post_fiscales en d req = (Send 404 "Enlace inválido.", d))
        /\ (forall vt,
               select_token d (hashToken en (params_token req)) (e_id election) = Some vt ->
               t_status vt <> ACTIVE ->
               post_fiscales en d req = (Render "vote_used", d)))
    /\ Send 404 "Enlace inválido." <> Render "vote_used".
Proof.
  intros en d election req. split; [|split].
  - intro Hr. destruct (post_votar_refusals en d election req Hr) as (H1 & H2 & _).
    split; assumption.
  - intro Hr. destruct (post_fiscales_refusals en d election req Hr) as (H1 & H2 & _).
    split; assumption.
  - discriminate.
Qed.

Lemma unknown_and_consumed_answers_witness :
  post_fiscales Scenario.env0 Scenario.db2 (Scenario.fiscal "nobody" 1)
  = (Send 404 "Enlace inválido.", Scenario.db2)
  /\ post_fiscales Scenario.env0 Scenario.db2 (Scenario.fiscal "tokA" 1)
     = (Render "vote_used", Scenario.db2).
Proof.
  assert (Hr : forall t, reaches_credential Scenario.env0 Scenario.db2 Scenario.election1
                           (body_fiscal_list_id (Scenario.fiscal t 1))).
  { intro t. split; [vm_compute; reflexivity|]. split; [vm_compute; reflexivity | discriminate]. }
  split.
  - apply (proj1 (proj1 (proj2 (unknown_and_consumed_answers Scenario.env0 Scenario.db2
                                  Scenario.election1 (Scenario.fiscal "nobody" 1)))
                        (Hr "nobody"))).
    vm_compute. reflexivity.
  - apply (proj2 (proj1 (proj2 (unknown_and_consumed_answers Scenario.env0 Scenario.db2
                                  Scenario.election1 (Scenario.fiscal "tokA" 1)))
                        (Hr "tokA"))
             (Token 1 (Some 1) 1 7 (hashToken Scenario.env0 "tokA") REVOKED 1500 None
                    "EMAIL")).
    + vm_compute. reflexivity.
    + discriminate.
Defined.

(** ** Issuing a second credential *)

Lemma find_map_same :
  forall (A : Type) (p : A -> bool) (g : A -> A) (l : list A),
    (forall x, p (g x) = p x) ->
    find p (map g l) = option_map g (find p l).
Proof.
  intros A p g l H. induction l as [|x t IH]; simpl; [reflexivity|].
  rewrite H. destruct (p x); [reflexivity|exact IH].
Qed.

Lemma find_app_found :
  forall (A : Type) (p : A -> bool) (l l' : list A) (x : A),
    find p l = Some x -> find p (l ++ l') = Some x.
Proof.
  intros A p l l' x. induction l as [|y t IH]; simpl; [discriminate|].
  destruct (p y); [auto|exact IH].
Qed.

Lemma revoke_row_keeps :
  forall eid unit t,
    t_id (revoke_row eid unit t) = t_id t
    /\ t_token_hash (revoke_row eid unit t) = t_token_hash t
    /\ t_election_id (revoke_row eid unit t) = t_election_id t
    /\ t_unit_id (revoke_row eid unit t) = t_unit_id t.
Proof.
  intros eid unit t. unfold revoke_row.
  destruct (election_is eid (t_election_id t) && (t_unit_id t =? unit)
            && token_status_eqb (t_status t) ACTIVE); repeat split.
Qed.

Lemma revoke_row_active :
  forall eid t,
    t_election_id t = Some eid -> t_status t = ACTIVE ->
    t_status (revoke_row eid (t_unit_id t) t) = REVOKED.
Proof.
  intros eid t He Hs. unfold revoke_row.
  rewrite (proj2 (election_is_true eid _) He), Z.eqb_refl, Hs. reflexivity.
Qed.


Lemma next_id_map_revoke :
  forall eid unit l,
    next_id t_id (map (revoke_row eid unit) l) = next_id t_id l.
Proof.
  intros eid unit l. unfold next_id. f_equal.
  induction l as [|x t IH]; simpl; [reflexivity|].
  rewrite IH. destruct (revoke_row_keeps eid unit x) as (-> & _). reflexivity.
Qed.

Lemma post_aprobar_issued :
  forall en d req d',
    post_aprobar en d req = (Render "admin_link_issued", d') ->
    exists active rr,
      find (pending_in (e_id active) (params_id req)) (registrations d) = Some rr
      /\ issued en d req active (r_unit_id rr) d'.
Proof.
  intros en d req d' H. unfold post_aprobar in H.
  destruct (getActiveElection d) as [active|] eqn:Ha; [|discriminate].
  destruct (req_session req) as [[[adm|]]|]; try discriminate.
  destruct (find (pending_in (e_id active) (params_id req)) (registrations d))
    as [rr|] eqn:Hf; [|discriminate].
  unfold insert_token in H.
  match type of H with
  | context [if ?c then _ else _] => destruct c; [discriminate|]
  end.
  inversion H; subst. exists active, rr. split; [exact Hf|].
  unfold issued. simpl. rewrite next_id_map_revoke. auto.
Qed.

Lemma post_reemitir_issued :
  forall en d req d',
    post_reemitir en d req = (Render "admin_link_issued", d') ->
    exists active reg,
      find (approved_in (e_id active) (params_id req)) (registrations d) = Some reg
      /\ issued en d req active (r_unit_id reg) d'.
Proof.
  intros en d req d' H. unfold post_reemitir in H.
  destruct (getActiveElection d) as [active|] eqn:Ha; [|discriminate].
  destruct (find (approved_in (e_id active) (params_id req)) (registrations d))
    as [reg|] eqn:Hf; [|discriminate].
  unfold insert_token in H.
  match type of H with
  | context [if ?c then _ else _] => destruct c; [discriminate|]
  end.
  destruct (req_session req) as [[[adm|]]|]; try discriminate.
  inversion H; subst. exists active, reg. split; [exact Hf|].
  unfold issued. simpl. rewrite next_id_map_revoke.
  apply find_some in Hf as (_ & Hc). unfold approved_in in Hc.
  apply andb_true_iff in Hc as (Hc & _). apply andb_true_iff in Hc as (Hc & _).
  apply Z.eqb_eq in Hc. rewrite Hc. auto.
Qed.

Lemma guarded_issue :
  forall handler en d req d',
    guarded requireAdmin handler en d req = (Render "admin_link_issued", d') ->
    handler en d req = (Render "admin_link_issued", d').
Proof.
  intros handler en d req d' H. unfold guarded in H.
  destruct (requireAdmin (req_session req)) eqn:E; [exact H|].
  unfold requireAdmin in E. destruct (truthy _); [discriminate|].
  inversion E; subst. discriminate.
Qed.

(** After an issue, the credential a secret led to before, if it was an
    ACTIVE one of the unit, is found REVOKED, and a cast with that secret
    is turned away with the already-voted page. *)
Lemma issued_revokes :
  forall en d req active unit d',
    issued en d req active unit d' ->
    forall secret vt,
      select_token d (hashToken en secret) (e_id active) = Some vt ->
      t_unit_id vt = unit ->
      t_status vt = ACTIVE ->
      (exists vt',
          select_token d' (hashToken en secret) (e_id active) = Some vt'
          /\ t_id vt' = t_id vt /\ t_status vt' = REVOKED)
      /\ forall en' cast,
          TOKEN_SECRET en' = TOKEN_SECRET en ->
          params_token cast = secret ->
          inWindow (js_now en') (e_vote_open_at active) (e_vote_close_at active) = true ->
          (body_candidate_id cast <> Missing ->
           post_votar en' d' cast = (Render "vote_used", d'))
          /\ (body_fiscal_list_id cast <> Missing ->
              post_fiscales en' d' cast = (Render "vote_used", d')).
Proof.
  intros en d req active unit d' (Ha & He & _ & _ & Ht) secret vt Hs Hu Hact.
  assert (Hsel : select_token d' (hashToken en secret) (e_id active)
                 = Some (revoke_row (e_id active) unit vt)).
  { unfold select_token in *. rewrite Ht. apply find_app_found.
    rewrite find_map_same.
    - rewrite Hs. reflexivity.
    - intro x. destruct (revoke_row_keeps (e_id active) unit x) as (_ & -> & -> & _).
      reflexivity. }
  apply select_token_In in Hs as Hin. destruct Hin as (_ & _ & Hel).
  assert (Hrev : t_status (revoke_row (e_id active) unit vt) = REVOKED).
  { subst unit. apply revoke_row_active; assumption. }
  split.
  - exists (revoke_row (e_id active) unit vt). split; [exact Hsel|].
    split; [apply revoke_row_keeps|exact Hrev].
  - intros en' cast Hsec Htok Hw.
    assert (Hh : hashToken en' (params_token cast) = hashToken en secret).
    { unfold hashToken. rewrite Hsec, Htok. reflexivity. }
    assert (Hact' : getActiveElection d' = Some active).
    { unfold getActiveElection. rewrite He. exact Ha. }
    split; intro Hc.
    + apply (proj1 (proj2 (post_votar_refusals en' d' active cast
                             (conj Hact' (conj Hw Hc))))
               (revoke_row (e_id active) unit vt)).
      * rewrite Hh. exact Hsel.
      * rewrite Hrev. discriminate.
    + apply (proj1 (proj2 (post_fiscales_refusals en' d' active cast
                             (conj Hact' (conj Hw Hc))))
               (revoke_row (e_id active) unit vt)).
      * rewrite Hh. exact Hsel.
      * rewrite Hrev. discriminate.
Qed.

(** C8, the claim refuted.  The registration of unit 7 is approved
    (credential "tokA") and then re-issued (credential "tokB"): "tokA" is
    REVOKED.  A cast with "tokA" is answered with the already-voted page,
    the answer any consumed credential gets, and not with the 404 "Enlace
    inválido." that an invalid secret gets. *)
Lemma revoked_secret_gets_already_voted_page :
  Scenario.statuses Scenario.db1 = [(1, ACTIVE)]
  /\ Scenario.statuses Scenario.db2 = [(1, REVOKED); (2, ACTIVE)]
  /\ post_fiscales Scenario.env0 Scenario.db2 (Scenario.fiscal "tokA" 1)
     = (Render "vote_used", Scenario.db2)
  /\ post_fiscales Scenario.env0 Scenario.db2 (Scenario.fiscal "invalid" 1)
     = (Send 404 "Enlace inválido.", Scenario.db2)
  /\ fst (post_fiscales Scenario.env0 Scenario.db2 (Scenario.fiscal "tokA" 1))
     <> Send 404 "Enlace inválido.".
Proof.
  vm_compute. repeat split; try reflexivity. discriminate.
Qed.

(** C8, amended.  When the approval or the re-issue of a registration
    issues a credential, every credential of the active election that was
    ACTIVE for the unit of that registration is REVOKED afterwards.  A
    later cast with the secret of such a credential, council or fiscal,
    that gets as far as the credential is answered with the already-voted
    page, as for any credential that is not ACTIVE, and writes nothing. *)
Theorem second_issue_revokes_first :
  forall en d req d',
    route_aprobar en d req = (Render "admin_link_issued", d')
    \/ route_reemitir en d req = (Render "admin_link_issued", d') ->
    exists active rr,
      getActiveElection d = Some active
      /\ In rr (registrations d) /\ r_id rr = params_id req
      /\ forall secret vt,
          select_token d (hashToken en secret) (e_id active) = Some vt ->
          t_unit_id vt = r_unit_id rr ->
          t_status vt = ACTIVE ->
          (exists vt',
              select_token d' (hashToken en secret) (e_id active) = Some vt'
              /\ t_id vt' = t_id vt /\ t_status vt' = REVOKED)
          /\ forall en' cast,
              TOKEN_SECRET en' = TOKEN_SECRET en ->
              params_token cast = secret ->
              inWindow (js_now en') (e_vote_open_at active) (e_vote_close_at active) = true ->
              (body_candidate_id cast <> Missing ->
               post_votar en' d' cast = (Render "vote_used", d'))
              /\ (body_fiscal_list_id cast <> Missing ->
                  post_fiscales en' d' cast = (Render "vote_used", d')).
Proof.
  intros en d req d' [H|H]; apply guarded_issue in H.
  - apply post_aprobar_issued in H as (active & rr & Hf & Hi).
    exists active, rr. split; [apply Hi|].
    apply find_some in Hf as (Hin & Hc). unfold pending_in in Hc.
    apply andb_true_iff in Hc as (Hc & _). apply andb_true_iff in Hc as (Hc & _).
    apply Z.eqb_eq in Hc.
    split; [exact Hin|]. split; [exact Hc|].
    apply (issued_revokes en d req active (r_unit_id rr) d' Hi).
  - apply post_reemitir_issued in H as (active & rr & Hf & Hi).
    exists active, rr. split; [apply Hi|].
    apply find_some in Hf as (Hin & Hc). unfold approved_in in Hc.
    apply andb_true_iff in Hc as (Hc & _). apply andb_true_iff in Hc as (Hc & _).
    apply Z.eqb_eq in Hc.
    split; [exact Hin|]. split; [exact Hc|].
    apply (issued_revokes en d req active (r_unit_id rr) d' Hi).
Qed.

Lemma second_issue_revokes_first_witness :
  exists vt',
    select_token Scenario.db2 (hashToken Scenario.env0 "tokA") 1 = Some vt'
    /\ t_id vt' = 1 /\ t_status vt' = REVOKED.
Proof.
  destruct (second_issue_revokes_first
              Scenario.env0 Scenario.db1
              (AdminRequest Scenario.committee 1 "tokB" (Mailed true)) Scenario.db2)
    as (active & rr & Ha & Hin & _ & H).
  - right. vm_compute. reflexivity.
  - vm_compute in Ha. injection Ha as <-.
    vm_compute in Hin. destruct Hin as [<-|[]].
    destruct (H "tokA" (Token 1 (Some 1) 1 7 (hashToken Scenario.env0 "tokA") ACTIVE 1500
                              None "EMAIL")) as (R & _).
    + vm_compute. reflexivity.
    + reflexivity.
    + reflexivity.
    + exact R.
Defined.

(** ** The ballot page *)

(** C10, the claim refuted.  Unit 7 cast the fiscal ballot and then the
    council ballot, so both exist and its credential is still ACTIVE.  The
    ballot page asked for after the close of the voting window answers
    with the preview page and leaves the credential ACTIVE. *)
Lemma ballot_view_outside_window_repairs_nothing :
  let late := Env "pepper" 2500 2500 in
  let d := snd (post_votar Scenario.env0
                  (snd (post_fiscales Scenario.env0 Scenario.db1 (Scenario.fiscal "tokA" 1)))
                  (Scenario.council "tokA" 2)) in
  has_ballot (votes d) 1 7 = true
  /\ has_ballot (fiscal_votes d) 1 7 = true
  /\ Scenario.statuses d = [(1, ACTIVE)]
  /\ get_votar late d (Scenario.view "tokA") = (Render "vote_preview", d)
  /\ Scenario.statuses (snd (get_votar late d (Scenario.view "tokA"))) = [(1, ACTIVE)].
Proof.
  vm_compute. repeat split; reflexivity.
Qed.

(** C10, amended.  When the ballot page is asked for with a credential of
    the active election that is still ACTIVE while both the council and the
    fiscal ballot of its unit exist, and the voting window is open, the
    handler sets the credential to USED (with [used_at]) and renders the
    already-voted page; nothing else in the database changes.  Outside the
    voting window the handler renders the preview page before it looks at
    the ballots, and the credential stays as it is. *)
Theorem ballot_view_retires_completed_credential :
  forall en d req election vt,
    getActiveElection d = Some election ->
    select_token_joined d (hashToken en (params_token req)) (e_id election) = Some vt ->
    has_ballot (votes d) (e_id election) (t_unit_id vt) = true ->
    has_ballot (fiscal_votes d) (e_id election) (t_unit_id vt) = true ->
    t_status vt = ACTIVE ->
    (inWindow (js_now en) (e_vote_open_at election) (e_vote_close_at election) = true ->
     get_votar en d req = (Render "vote_used", mark_used en (t_id vt) d)
     /\ In (retired en vt) (vote_tokens (mark_used en (t_id vt) d))
     /\ (forall t, In t (vote_tokens (mark_used en (t_id vt) d)) -> t_id t = t_id vt ->
                   t_status t = USED /\ t_used_at t = Some (sql_now en))
     /\ mark_used en (t_id vt) d
        = with_vote_tokens d (vote_tokens (mark_used en (t_id vt) d)))
    /\ (inWindow (js_now en) (e_vote_open_at election) (e_vote_close_at election) = false ->
        get_votar en d req = (Render "vote_preview", d)).
Proof.
  intros en d req election vt Ha Hs Hc Hf Hact. split; intro Hw.
  - split.
    + unfold get_votar. rewrite Ha, Hs, Hw, Hc, Hf, Hact. reflexivity.
    + destruct (mark_used_spec en (t_id vt) d) as (H1 & H2 & _).
      split; [|split; [exact H2|reflexivity]].
      apply H1; [|reflexivity].
      unfold select_token_joined in Hs. apply find_some in Hs. tauto.
  - unfold get_votar. rewrite Ha, Hs, Hw. reflexivity.
Qed.

Lemma ballot_view_retires_completed_credential_witness :
  let d := snd (post_votar Scenario.env0
                  (snd (post_fiscales Scenario.env0 Scenario.db1 (Scenario.fiscal "tokA" 1)))
                  (Scenario.council "tokA" 2)) in
  get_votar Scenario.env0 d (Scenario.view "tokA")
  = (Render "vote_used", mark_used Scenario.env0 1 d).
Proof.
  cbv zeta.
  set (d := snd (post_votar Scenario.env0 _ (Scenario.council "tokA" 2))).
  refine (proj1 (proj1 (ballot_view_retires_completed_credential
                          Scenario.env0 d (Scenario.view "tokA") Scenario.election1
                          (Token 1 (Some 1) 1 7 (hashToken Scenario.env0 "tokA") ACTIVE 1500
                                 None "EMAIL") _ _ _ _ _) _)).
  all: vm_compute; reflexivity.
Defined.

(* ------------------------------------------------------------------ *)
(** ** Further properties: what a cast writes *)

Lemma post_votar_cases :
  forall en d req,
    (snd (post_votar en d req) = d /\ forall u, fst (post_votar en d req) <> Redirect u)
    \/ exists election vt n,
        reaches_credential en d election (body_candidate_id req)
        /\ select_token d (hashToken en (params_token req)) (e_id election) = Some vt
        /\ t_status vt = ACTIVE
        /\ body_candidate_id req = Int n
        /\ existsb (same_key votes_unique (new_ballot en (votes d) (e_id election) vt n req))
                   (votes d) = false
        /\ existsb (Z.eqb n) (candidates d) = true
        /\ post_votar en d req
           = (Redirect ("/votar/" ++ params_token req),
              audit (with_votes d (votes d ++ [new_ballot en (votes d) (e_id election) vt n req]))
                    (cast_audit "VOTE_CAST" "candidate_id" election vt n)).
Proof.
  intros en d req. unfold post_votar.
  destruct (getActiveElection d) as [election|] eqn:Ha;
    [|left; split; [reflexivity|intro u; discriminate]].
  destruct (inWindow (js_now en) (e_vote_open_at election) (e_vote_close_at election)) eqn:Hw;
    simpl negb; cbv iota; [|left; split; [reflexivity|intro u; discriminate]].
  unfold post_votar_tx.
  destruct (body_candidate_id req) as [| |n] eqn:Hb;
    [left; split; [reflexivity|intro u; discriminate]| |].
  - destruct (select_token d _ _) as [vt|];
      [|left; split; [reflexivity|intro u; discriminate]].
    destruct (token_status_eqb (t_status vt) ACTIVE); simpl;
      left; split; try reflexivity; intro u; discriminate.
  - destruct (select_token d _ _) as [vt|] eqn:Hs;
      [|left; split; [reflexivity|intro u; discriminate]].
    destruct (token_status_eqb (t_status vt) ACTIVE) eqn:Hst; simpl negb; cbv iota;
      [|left; split; [reflexivity|intro u; discriminate]].
    unfold insert_with, insert_ballot.
    destruct (existsb (same_key votes_unique (new_ballot en (votes d) (e_id election) vt n req))
                      (votes d)) eqn:Hu;
      [left; split; [reflexivity|intro u; discriminate]|].
    change (b_choice_id (new_ballot en (votes d) (e_id election) vt n req)) with n.
    destruct (existsb (Z.eqb n) (candidates d)) eqn:Hc; simpl negb; cbv iota;
      [|left; split; [reflexivity|intro u; discriminate]].
    right. exists election, vt, n.
    split; [repeat split; [exact Ha|exact Hw|discriminate]|].
    split; [exact Hs|]. split; [apply status_eqb_ACTIVE; exact Hst|].
    split; [reflexivity|]. split; [exact Hu|]. split; [exact Hc|]. reflexivity.
Qed.

Ltac refused := left; split; [reflexivity | discriminate].

Lemma post_fiscales_cases :
  forall en d req,
    (snd (post_fiscales en d req) = d /\ fst (post_fiscales en d req) <> Render "vote_done")
    \/ exists election vt n,
        reaches_credential en d election (body_fiscal_list_id req)
        /\ select_token d (hashToken en (params_token req)) (e_id election) = Some vt
        /\ t_status vt = ACTIVE
        /\ body_fiscal_list_id req = Int n
        /\ existsb (same_key fiscal_votes_unique
                             (new_ballot en (fiscal_votes d) (e_id election) vt n req))
                   (fiscal_votes d) = false
        /\ existsb (Z.eqb n) (fiscal_lists d) = true
        /\ let d1 := with_fiscal_votes d
                       (fiscal_votes d
                        ++ [new_ballot en (fiscal_votes d) (e_id election) vt n req]) in
           let row := cast_audit "FISCAL_VOTE_CAST" "fiscal_list_id" election vt n in
           post_fiscales en d req
           = if has_ballot (votes d) (e_id election) (t_unit_id vt)
             then (Render "vote_done", audit (mark_used en (t_id vt) d1) row)
             else (Redirect ("/votar/" ++ params_token req), audit d1 row).
Proof.
  intros en d req. unfold post_fiscales.
  destruct (getActiveElection d) as [election|] eqn:Ha; [|refused].
  destruct (inWindow (js_now en) (e_vote_open_at election) (e_vote_close_at election)) eqn:Hw;
    simpl negb; cbv iota; [|refused].
  unfold post_fiscales_tx.
  destruct (body_fiscal_list_id req) as [| |n] eqn:Hb; [refused| |].
  - destruct (select_token d _ _) as [vt|]; [|refused].
    destruct (token_status_eqb (t_status vt) ACTIVE); simpl; refused.
  - destruct (select_token d _ _) as [vt|] eqn:Hs; [|refused].
    destruct (token_status_eqb (t_status vt) ACTIVE) eqn:Hst; simpl negb; cbv iota;
      [|refused].
    unfold insert_with, insert_ballot.
    destruct (existsb (same_key fiscal_votes_unique
                                (new_ballot en (fiscal_votes d) (e_id election) vt n req))
                      (fiscal_votes d)) eqn:Hu; [refused|].
    change (b_choice_id (new_ballot en (fiscal_votes d) (e_id election) vt n req)) with n.
    destruct (existsb (Z.eqb n) (fiscal_lists d)) eqn:Hc; simpl negb; cbv iota;
      [|refused].
    right. exists election, vt, n.
    split; [repeat split; [exact Ha|exact Hw|discriminate]|].
    split; [exact Hs|]. split; [apply status_eqb_ACTIVE; exact Hst|].
    split; [reflexivity|]. split; [exact Hu|]. split; [exact Hc|].
    cbv zeta. simpl votes.
    destruct (has_ballot (votes d) (e_id election) (t_unit_id vt)); reflexivity.
Qed.




(* ------------------------------------------------------------------ *)
(** ** Further properties: invariants of the voter's routes *)

Lemma NoDup_snoc :
  forall (A : Type) (l : list A) (a : A), NoDup l -> ~ In a l -> NoDup (l ++ [a]).
Proof.
  intros A l a Hl Ha. induction l as [|x t IH]; simpl.
  - constructor; [intros []|constructor].
  - inversion Hl as [|? ? Hx Ht]; subst. constructor.
    + intro Hin. apply in_app_or in Hin as [Hin|[Hin|[]]]; [auto|].
      subst. apply Ha. left. reflexivity.
    + apply IH; [exact Ht|]. intro Hin. apply Ha. right. exact Hin.
Qed.

Lemma council_key_free :
  forall b table,
    existsb (same_key votes_unique b) table = false ->
    ~ In (b_unit_id b) (council_keys table).
Proof.
  intros b table H Hin. unfold council_keys in Hin.
  apply in_map_iff in Hin as (x & Hx & Hin).
  assert (E : existsb (same_key votes_unique b) table = true).
  { apply existsb_exists. exists x. split; [exact Hin|].
    unfold same_key. simpl. rewrite Hx, Z.eqb_refl. reflexivity. }
  congruence.
Qed.

Lemma fiscal_key_free :
  forall b table eid,
    b_election_id b = Some eid ->
    existsb (same_key fiscal_votes_unique b) table = false ->
    ~ In (b_election_id b, b_unit_id b) (fiscal_keys table).
Proof.
  intros b table eid He H Hin. unfold fiscal_keys in Hin.
  apply in_map_iff in Hin as (x & Hx & Hin). inversion Hx as [[Hxe Hxu]].
  assert (E : existsb (same_key fiscal_votes_unique b) table = true).
  { apply existsb_exists. exists x. split; [exact Hin|].
    unfold same_key. simpl. rewrite Hxe, Hxu, He, !Z.eqb_refl. reflexivity. }
  congruence.
Qed.

Lemma get_votar_cases :
  forall en d req,
    snd (get_votar en d req) = d
    \/ exists election vt,
        getActiveElection d = Some election
        /\ select_token_joined d (hashToken en (params_token req)) (e_id election) = Some vt
        /\ t_status vt = ACTIVE
        /\ get_votar en d req = (Render "vote_used", mark_used en (t_id vt) d).
Proof.
  intros en d req. unfold get_votar.
  destruct (getActiveElection d) as [election|]; [|left; reflexivity].
  destruct (select_token_joined d _ _) as [vt|] eqn:Hs; [|left; reflexivity].
  destruct (negb (inWindow _ _ _)); [left; reflexivity|].
  destruct (has_ballot (votes d) _ _ && has_ballot (fiscal_votes d) _ _).
  - destruct (token_status_eqb (t_status vt) ACTIVE) eqn:Hst; [|left; reflexivity].
    right. exists election, vt. split; [reflexivity|]. split; [exact Hs|].
    split; [apply status_eqb_ACTIVE; exact Hst|reflexivity].
  - destruct (negb (has_ballot (votes d) _ _)); left; reflexivity.
Qed.

(** X3.  The three routes of the voter keep both uniqueness invariants:
    if no two council ballots are of the same unit and no two fiscal
    ballots of the same election and unit before a request, the same holds
    after it, whatever the request. *)
Theorem voter_routes_keep_one_ballot_per_unit :
  forall en d req d',
    d' = snd (get_votar en d req)
    \/ d' = snd (post_votar en d req)
    \/ d' = snd (post_fiscales en d req) ->
    NoDup (council_keys (votes d)) /\ NoDup (fiscal_keys (fiscal_votes d)) ->
    NoDup (council_keys (votes d')) /\ NoDup (fiscal_keys (fiscal_votes d')).
Proof.
  intros en d req d' H (Hc & Hf).
  destruct H as [-> | [-> | ->]].
  - destruct (get_votar_cases en d req) as [-> | (election & vt & _ & _ & _ & ->)];
      split; assumption.
  - destruct (post_votar_cases en d req)
      as [(-> & _) | (election & vt & n & _ & _ & _ & _ & Hu & _ & ->)];
      [split; assumption|].
    simpl. split; [|exact Hf].
    unfold council_keys. rewrite map_app. simpl.
    apply NoDup_snoc; [exact Hc|].
    exact (council_key_free (new_ballot en (votes d) (e_id election) vt n req) _ Hu).
  - destruct (post_fiscales_cases en d req)
      as [(-> & _) | (election & vt & n & _ & _ & _ & _ & Hu & _ & Heq)];
      [split; assumption|].
    cbv zeta in Heq. rewrite Heq.
    assert (G : NoDup (fiscal_keys
                         (fiscal_votes d
                          ++ [new_ballot en (fiscal_votes d) (e_id election) vt n req]))).
    { unfold fiscal_keys. rewrite map_app. simpl.
      apply NoDup_snoc; [exact Hf|].
      exact (fiscal_key_free (new_ballot en (fiscal_votes d) (e_id election) vt n req) _
                             (e_id election) eq_refl Hu). }
    destruct (has_ballot (votes d) (e_id election) (t_unit_id vt)); simpl;
      split; assumption.
Qed.

Lemma voter_routes_keep_one_ballot_per_unit_witness :
  let d := snd (post_votar Scenario.env0 Scenario.db1 (Scenario.council "tokA" 1)) in
  NoDup (council_keys (votes (snd (post_fiscales Scenario.env0 d (Scenario.fiscal "tokA" 2)))))
  /\ NoDup (fiscal_keys
              (fiscal_votes (snd (post_fiscales Scenario.env0 d (Scenario.fiscal "tokA" 2))))).
Proof.
  cbv zeta.
  apply (voter_routes_keep_one_ballot_per_unit
           Scenario.env0 _ (Scenario.fiscal "tokA" 2) _ (or_intror (or_intror eq_refl))).
  vm_compute. split; repeat constructor; intros [].
Defined.

Lemma same_id_same_row :
  forall l a b,
    NoDup (map t_id l) -> In a l -> In b l -> t_id a = t_id b -> a = b.
Proof.
  induction l as [|x t IH]; intros a b Hn Ha Hb E; [destruct Ha|].
  simpl in Hn. inversion Hn as [|? ? Hx Ht]; subst.
  destruct Ha as [->|Ha], Hb as [->|Hb]; [reflexivity| | |auto].
  - exfalso. apply Hx. rewrite E. apply in_map. exact Hb.
  - exfalso. apply Hx. rewrite <- E. apply in_map. exact Ha.
Qed.

Lemma mark_used_keeps_others :
  forall en d vt t,
    NoDup (map t_id (vote_tokens d)) ->
    In vt (vote_tokens d) -> t_status vt = ACTIVE ->
    In t (vote_tokens d) -> t_status t <> ACTIVE ->
    In t (vote_tokens (mark_used en (t_id vt) d)).
Proof.
  intros en d vt t Hn Hvt Hact Ht Hs. unfold mark_used. simpl.
  apply in_map_iff. exists t. split; [|exact Ht].
  destruct (t_id t =? t_id vt) eqn:E; [|reflexivity].
  apply Z.eqb_eq in E. exfalso. apply Hs.
  rewrite (same_id_same_row _ t vt Hn Ht Hvt E). exact Hact.
Qed.

Lemma revoke_row_consumed :
  forall eid unit t, t_status t <> ACTIVE -> revoke_row eid unit t = t.
Proof.
  intros eid unit t H. unfold revoke_row.
  rewrite (status_eqb_not_ACTIVE _ H), andb_false_r. reflexivity.
Qed.

(** The credential table after a request to one of the issuing routes:
    as it was, or with the ACTIVE credentials of one unit revoked and
    possibly one row more. *)
Lemma issue_tokens_shape :
  forall en d req,
    (forall d', d' = snd (post_aprobar en d req) \/ d' = snd (post_reemitir en d req) ->
                vote_tokens d' = vote_tokens d
                \/ exists eid unit extra,
                    vote_tokens d'
                    = map (revoke_row eid unit) (vote_tokens d) ++ extra).
Proof.
  intros en d req d' [-> | ->].
  - unfold post_aprobar.
    destruct (getActiveElection d) as [active|]; [|left; reflexivity].
    destruct (req_session req) as [[[adm|]]|]; try (left; reflexivity).
    destruct (find _ (registrations d)) as [rr|]; [|left; reflexivity].
    right. exists (e_id active), (r_unit_id rr).
    unfold insert_token.
    match goal with
    | |- context [if ?c then _ else _] => destruct c
    end; simpl.
    + exists []. rewrite app_nil_r. reflexivity.
    + eexists. reflexivity.
  - unfold post_reemitir.
    destruct (getActiveElection d) as [active|]; [|left; reflexivity].
    destruct (find _ (registrations d)) as [reg|]; [|left; reflexivity].
    right. exists (e_id active), (r_unit_id reg).
    unfold insert_token.
    match goal with
    | |- context [if ?c then _ else _] => destruct c
    end; simpl.
    + exists []. rewrite app_nil_r. reflexivity.
    + destruct (req_session req) as [[[adm|]]|]; simpl; eexists; reflexivity.
Qed.

Lemma guarded_cases :
  forall mw handler en d req,
    guarded mw handler en d req = handler en d req
    \/ snd (guarded mw handler en d req) = d.
Proof.
  intros mw handler en d req. unfold guarded.
  destruct (mw (req_session req)); [left|right]; reflexivity.
Qed.

(** X4.  A credential that is not ACTIVE (USED, REVOKED or EXPIRED) is
    left exactly as stored by every route that writes credentials: the
    ballot page, the two casts, the approval and the re-issue.  For the two
    routes that mark a credential USED this holds when credential ids are
    distinct, as the primary key has them. *)
Theorem consumed_credentials_are_never_changed :
  forall en d t,
    In t (vote_tokens d) ->
    t_status t <> ACTIVE ->
    (forall req, In t (vote_tokens (snd (post_votar en d req))))
    /\ (forall req, In t (vote_tokens (snd (route_aprobar en d req))))
    /\ (forall req, In t (vote_tokens (snd (route_reemitir en d req))))
    /\ (NoDup (map t_id (vote_tokens d)) ->
        forall req,
          In t (vote_tokens (snd (get_votar en d req)))
          /\ In t (vote_tokens (snd (post_fiscales en d req)))).
Proof.
  intros en d t Hin Hs.
  assert (Issue : forall d',
             vote_tokens d' = vote_tokens d
             \/ (exists eid unit extra,
                    vote_tokens d' = map (revoke_row eid unit) (vote_tokens d) ++ extra) ->
             In t (vote_tokens d')).
  { intros d' [-> | (eid & unit & extra & ->)]; [exact Hin|].
    apply in_or_app. left. apply in_map_iff. exists t.
    split; [apply revoke_row_consumed; exact Hs|exact Hin]. }
  split; [|split; [|split]].
  - intro req.
    destruct (post_votar_cases en d req)
      as [(-> & _) | (election & vt & n & _ & _ & _ & _ & _ & _ & ->)]; exact Hin.
  - intro req. unfold route_aprobar.
    destruct (guarded_cases requireAdmin post_aprobar en d req) as [-> | ->]; [|exact Hin].
    apply Issue. apply (issue_tokens_shape en d req). left. reflexivity.
  - intro req. unfold route_reemitir.
    destruct (guarded_cases requireAdmin post_reemitir en d req) as [-> | ->]; [|exact Hin].
    apply Issue. apply (issue_tokens_shape en d req). right. reflexivity.
  - intros Hn req. split.
    + destruct (get_votar_cases en d req) as [-> | (election & vt & _ & Hsel & Hact & ->)];
        [exact Hin|].
      simpl snd. apply mark_used_keeps_others; auto.
      unfold select_token_joined in Hsel. apply find_some in Hsel. tauto.
    + destruct (post_fiscales_cases en d req)
        as [(-> & _) | (election & vt & n & _ & Hsel & Hact & _ & _ & _ & Heq)]; [exact Hin|].
      cbv zeta in Heq. rewrite Heq.
      destruct (has_ballot (votes d) (e_id election) (t_unit_id vt)); simpl; [|exact Hin].
      apply select_token_In in Hsel as (Hvt & _).
      apply (mark_used_keeps_others en
               (with_fiscal_votes d
                  (fiscal_votes d ++ [new_ballot en (fiscal_votes d) (e_id election) vt n req]))
               vt t Hn Hvt Hact Hin Hs).
Qed.

Lemma consumed_credentials_are_never_changed_witness :
  In (Token 1 (Some 1) 1 7 (hashToken Scenario.env0 "tokA") REVOKED 1500 None "EMAIL")
     (vote_tokens (snd (post_fiscales Scenario.env0 Scenario.db2 (Scenario.fiscal "tokB" 1)))).
Proof.
  refine (proj2 (proj2 (proj2 (proj2
            (consumed_credentials_are_never_changed Scenario.env0 Scenario.db2
               (Token 1 (Some 1) 1 7 (hashToken Scenario.env0 "tokA") REVOKED 1500 None "EMAIL")
               _ _))) _ (Scenario.fiscal "tokB" 1))).
  - vm_compute. left. reflexivity.
  - discriminate.
  - vm_compute. repeat constructor; simpl; intuition discriminate.
Defined.

(** X5.  While no election is active, or outside the voting window of the
    active one, none of the three routes of the voter writes anything,
    whatever the credential and the choice: the casts answer with status
    500, respectively the closed and the preview page, before they look at
    the credential. *)
Theorem nothing_is_cast_outside_the_window :
  forall en d req,
    (getActiveElection d = None ->
     get_votar en d req = (Send 500 "No hay elección activa.", d)
     /\ post_votar en d req = (Send 500 "No hay elección activa.", d)
     /\ post_fiscales en d req = (Send 500 "No hay elección activa.", d))
    /\ (forall election,
           getActiveElection d = Some election ->
           inWindow (js_now en) (e_vote_open_at election) (e_vote_close_at election) = false ->
           snd (get_votar en d req) = d
           /\ (fst (get_votar en d req) = Render "vote_preview"
               \/ fst (get_votar en d req) = Send 404 "Enlace inválido.")
           /\ post_votar en d req = (Render "closed", d)
           /\ post_fiscales en d req = (Render "vote_preview", d)).
Proof.
  intros en d req. split.
  - intro H. unfold get_votar, post_votar, post_fiscales. rewrite H. auto.
  - intros election Ha Hw. unfold get_votar, post_votar, post_fiscales.
    rewrite Ha, Hw. simpl.
    destruct (select_token_joined d _ _); simpl; auto.
Qed.

Lemma nothing_is_cast_outside_the_window_witness :
  post_votar (Env "pepper" 2001 2001) Scenario.db1 (Scenario.council "tokA" 1)
  = (Render "closed", Scenario.db1).
Proof.
  refine (proj1 (proj2 (proj2
            (proj2 (nothing_is_cast_outside_the_window (Env "pepper" 2001 2001) Scenario.db1
                      (Scenario.council "tokA" 1)) Scenario.election1 _ _)))).
  - vm_compute. reflexivity.
  - vm_compute. reflexivity.
Defined.




(* ------------------------------------------------------------------ *)
(** ** Further properties: issuing credentials *)

Lemma existsb_map_same :
  forall (A : Type) (p : A -> bool) (g : A -> A) (l : list A),
    (forall x, p (g x) = p x) -> existsb p (map g l) = existsb p l.
Proof.
  intros A p g l H. induction l as [|x t IH]; simpl; [reflexivity|].
  rewrite H, IH. reflexivity.
Qed.

Lemma find_none_app :
  forall (A : Type) (p : A -> bool) (l l' : list A),
    existsb p l = false -> find p (l ++ l') = find p l'.
Proof.
  intros A p l l' H. induction l as [|x t IH]; simpl in *; [reflexivity|].
  apply orb_false_iff in H as (Hx & Ht). rewrite Hx. auto.
Qed.

(** A successful issue drew a token whose hash no credential had. *)
Lemma issue_is_fresh :
  forall en d req d',
    route_aprobar en d req = (Render "admin_link_issued", d')
    \/ route_reemitir en d req = (Render "admin_link_issued", d') ->
    existsb (fun t => String.eqb (t_token_hash t) (hashToken en (drawn_token req)))
            (vote_tokens d) = false.
Proof.
  intros en d req d' [H|H]; apply guarded_issue in H.
  - unfold post_aprobar in H.
    destruct (getActiveElection d) as [active|]; [|discriminate].
    destruct (req_session req) as [[[adm|]]|]; try discriminate.
    destruct (find _ (registrations d)) as [rr|]; [|discriminate].
    unfold insert_token in H.
    match type of H with
    | context [if ?c then _ else _] => destruct c eqn:E; [discriminate|]
    end.
    simpl in E. rewrite existsb_map_same in E; [exact E|].
    intro x. destruct (revoke_row_keeps (e_id active) (r_unit_id rr) x) as (_ & -> & _).
    reflexivity.
  - unfold post_reemitir in H.
    destruct (getActiveElection d) as [active|]; [|discriminate].
    destruct (find _ (registrations d)) as [reg|]; [|discriminate].
    unfold insert_token in H.
    match type of H with
    | context [if ?c then _ else _] => destruct c eqn:E; [discriminate|]
    end.
    simpl in E. rewrite existsb_map_same in E; [exact E|].
    intro x. destruct (revoke_row_keeps (e_id active) (r_unit_id reg) x) as (_ & -> & _).
    reflexivity.
Qed.

Lemma issue_inversion :
  forall en d req d',
    route_aprobar en d req = (Render "admin_link_issued", d')
    \/ route_reemitir en d req = (Render "admin_link_issued", d') ->
    exists active rr,
      In rr (registrations d) /\ r_id rr = params_id req
      /\ issued en d req active (r_unit_id rr) d'.
Proof.
  intros en d req d' [H|H]; apply guarded_issue in H.
  - apply post_aprobar_issued in H as (active & rr & Hf & Hi).
    exists active, rr. apply find_some in Hf as (Hin & Hc). unfold pending_in in Hc.
    apply andb_true_iff in Hc as (Hc & _). apply andb_true_iff in Hc as (Hc & _).
    apply Z.eqb_eq in Hc. auto.
  - apply post_reemitir_issued in H as (active & rr & Hf & Hi).
    exists active, rr. apply find_some in Hf as (Hin & Hc). unfold approved_in in Hc.
    apply andb_true_iff in Hc as (Hc & _). apply andb_true_iff in Hc as (Hc & _).
    apply Z.eqb_eq in Hc. auto.
Qed.

Lemma revoked_rows_are_not_active :
  forall eid unit l,
    filter (fun t => election_is eid (t_election_id t) && (t_unit_id t =? unit)
                     && token_status_eqb (t_status t) ACTIVE)
           (map (revoke_row eid unit) l) = [].
Proof.
  intros eid unit l. induction l as [|x t IH]; simpl; [reflexivity|].
  rewrite IH. unfold revoke_row.
  destruct (election_is eid (t_election_id x) && (t_unit_id x =? unit)
            && token_status_eqb (t_status x) ACTIVE) eqn:E.
  - simpl. rewrite andb_false_r. reflexivity.
  - rewrite E. reflexivity.
Qed.

(** X7.  After an approval or a re-issue that issued a credential, the
    new credential is the only ACTIVE one of the unit in the active
    election, and the secret that was drawn resolves to it. *)
Theorem issue_leaves_one_active_credential :
  forall en d req d',
    route_aprobar en d req = (Render "admin_link_issued", d')
    \/ route_reemitir en d req = (Render "admin_link_issued", d') ->
    exists active rr,
      getActiveElection d = Some active
      /\ In rr (registrations d) /\ r_id rr = params_id req
      /\ let issued_row :=
           Token (next_id t_id (vote_tokens d)) (Some (e_id active)) (params_id req)
                 (r_unit_id rr) (hashToken en (drawn_token req)) ACTIVE (sql_now en) None
                 "EMAIL" in
         active_credentials d' (e_id active) (r_unit_id rr) = [issued_row]
         /\ select_token d' (hashToken en (drawn_token req)) (e_id active) = Some issued_row.
Proof.
  intros en d req d' H.
  pose proof (issue_is_fresh en d req d' H) as Hfresh.
  apply issue_inversion in H as (active & rr & Hin & Hid & (Ha & _ & _ & _ & Ht)).
  exists active, rr. split; [exact Ha|]. split; [exact Hin|]. split; [exact Hid|].
  cbv zeta. split.
  - unfold active_credentials. rewrite Ht, filter_app, revoked_rows_are_not_active.
    simpl. rewrite !Z.eqb_refl. reflexivity.
  - unfold select_token. rewrite Ht, find_none_app.
    + simpl. rewrite String.eqb_refl, Z.eqb_refl. reflexivity.
    + rewrite existsb_map_same.
      * apply not_true_is_false. intro E. apply existsb_exists in E as (x & Hx & Hp).
        apply andb_true_iff in Hp as (Hp & _).
        assert (E2 : existsb (fun t => String.eqb (t_token_hash t)
                                                  (hashToken en (drawn_token req)))
                             (vote_tokens d) = true)
          by (apply existsb_exists; exists x; auto).
        congruence.
      * intro x.
        destruct (revoke_row_keeps (e_id active) (r_unit_id rr) x) as (_ & -> & -> & _).
        reflexivity.
Qed.

Lemma issue_leaves_one_active_credential_witness :
  map t_id (active_credentials Scenario.db2 1 7) = [2].
Proof.
  destruct (issue_leaves_one_active_credential
              Scenario.env0 Scenario.db1
              (AdminRequest Scenario.committee 1 "tokB" (Mailed true)) Scenario.db2)
    as (active & rr & Ha & Hin & _ & H & _).
  - right. vm_compute. reflexivity.
  - vm_compute in Ha. injection Ha as <-.
    vm_compute in Hin. destruct Hin as [<-|[]].
    simpl in H. rewrite H. vm_compute. reflexivity.
Defined.

(* ------------------------------------------------------------------ *)
(** ** Further properties: casts that are accepted *)

Lemma council_key_unused :
  forall b table,
    ~ In (b_unit_id b) (council_keys table) ->
    existsb (same_key votes_unique b) table = false.
Proof.
  intros b table H. apply not_true_is_false. intro E.
  apply existsb_exists in E as (x & Hin & Hk). apply H.
  unfold same_key in Hk. simpl in Hk. rewrite andb_true_r in Hk. apply Z.eqb_eq in Hk.
  rewrite Hk. unfold council_keys. apply in_map. exact Hin.
Qed.


Lemma In_existsb_eqb :
  forall n l, In n l -> existsb (Z.eqb n) l = true.
Proof.
  intros n l H. apply existsb_exists. exists n. split; [exact H|apply Z.eqb_refl].
Qed.

Lemma post_votar_accepts :
  forall en d election req vt n,
    reaches_credential en d election (body_candidate_id req) ->
    select_token d (hashToken en (params_token req)) (e_id election) = Some vt ->
    t_status vt = ACTIVE ->
    body_candidate_id req = Int n ->
    In n (candidates d) ->
    ~ In (t_unit_id vt) (council_keys (votes d)) ->
    post_votar en d req
    = (Redirect ("/votar/" ++ params_token req),
       audit (with_votes d (votes d ++ [new_ballot en (votes d) (e_id election) vt n req]))
             (cast_audit "VOTE_CAST" "candidate_id" election vt n)).
Proof.
  intros en d election req vt n Hr Hs Hact Hb Hn Hfree.
  rewrite (post_votar_body en d election req Hr). unfold post_votar_tx.
  rewrite Hs, Hact, Hb. simpl negb. cbv iota.
  unfold insert_with, insert_ballot.
  rewrite (council_key_unused (new_ballot en (votes d) (e_id election) vt n req) _ Hfree).
  change (b_choice_id (new_ballot en (votes d) (e_id election) vt n req)) with n.
  rewrite (In_existsb_eqb n _ Hn). reflexivity.
Qed.


(** The issuing routes never touch the lists of candidates. *)
Lemma issue_keeps_lists :
  forall en d req d',
    d' = snd (route_aprobar en d req) \/ d' = snd (route_reemitir en d req) ->
    candidates d' = candidates d /\ fiscal_lists d' = fiscal_lists d.
Proof.
  intros en d req d' [-> | ->].
  - unfold route_aprobar.
    destruct (guarded_cases requireAdmin post_aprobar en d req) as [-> | ->];
      [|split; reflexivity].
    unfold post_aprobar.
    destruct (getActiveElection d) as [active|]; [|split; reflexivity].
    destruct (req_session req) as [[[adm|]]|]; try (split; reflexivity).
    destruct (find _ (registrations d)) as [rr|]; [|split; reflexivity].
    unfold insert_token.
    match goal with
    | |- context [if ?c then _ else _] => destruct c
    end; split; reflexivity.
  - unfold route_reemitir.
    destruct (guarded_cases requireAdmin post_reemitir en d req) as [-> | ->];
      [|split; reflexivity].
    unfold post_reemitir.
    destruct (getActiveElection d) as [active|]; [|split; reflexivity].
    destruct (find _ (registrations d)) as [reg|]; [|split; reflexivity].
    unfold insert_token.
    match goal with
    | |- context [if ?c then _ else _] => destruct c
    end; [split; reflexivity|].
    destruct (req_session req) as [[[adm|]]|]; split; reflexivity.
Qed.

(** X8.  Issue, then cast.  The secret drawn by an approval or re-issue
    that succeeded is accepted by the council cast: inside the voting
    window, with one of the council lists chosen and no council ballot of
    the unit stored, the cast answers with the redirect and stores the
    ballot of that unit for the active election. *)
Theorem issued_credential_is_accepted :
  forall en d req d',
    route_aprobar en d req = (Render "admin_link_issued", d')
    \/ route_reemitir en d req = (Render "admin_link_issued", d') ->
    exists active rr,
      getActiveElection d = Some active
      /\ In rr (registrations d) /\ r_id rr = params_id req
      /\ forall en' cast n,
          TOKEN_SECRET en' = TOKEN_SECRET en ->
          params_token cast = drawn_token req ->
          inWindow (js_now en') (e_vote_open_at active) (e_vote_close_at active) = true ->
          body_candidate_id cast = Int n ->
          In n (candidates d) ->
          ~ In (r_unit_id rr) (council_keys (votes d)) ->
          fst (post_votar en' d' cast) = Redirect ("/votar/" ++ drawn_token req)
          /\ exists b,
              votes (snd (post_votar en' d' cast)) = votes d ++ [b]
              /\ b_election_id b = Some (e_id active)
              /\ b_unit_id b = r_unit_id rr
              /\ b_choice_id b = n
              /\ b_cast_at b = sql_now en'.
Proof.
  intros en d req d' H.
  assert (Hlists : candidates d' = candidates d).
  { destruct H as [H|H].
    - apply (issue_keeps_lists en d req d'). left. rewrite H. reflexivity.
    - apply (issue_keeps_lists en d req d'). right. rewrite H. reflexivity. }
  pose proof (issue_is_fresh en d req d' H) as Hfresh.
  apply issue_inversion in H as (active & rr & Hin & Hid & (Ha & He & Hv & _ & Ht)).
  exists active, rr. split; [exact Ha|]. split; [exact Hin|]. split; [exact Hid|].
  intros en' cast n Hsec Htok Hw Hb Hn Hfree.
  assert (Hh : hashToken en' (params_token cast) = hashToken en (drawn_token req)).
  { unfold hashToken. rewrite Hsec, Htok. reflexivity. }
  assert (Hr : reaches_credential en' d' active (body_candidate_id cast)).
  { split; [unfold getActiveElection; rewrite He; exact Ha|].
    split; [exact Hw|]. rewrite Hb. discriminate. }
  set (row := Token (next_id t_id (vote_tokens d)) (Some (e_id active)) (params_id req)
                    (r_unit_id rr) (hashToken en (drawn_token req)) ACTIVE (sql_now en) None
                    "EMAIL").
  assert (Hsel : select_token d' (hashToken en' (params_token cast)) (e_id active) = Some row).
  { rewrite Hh. unfold select_token. rewrite Ht, find_none_app.
    - simpl. rewrite String.eqb_refl, Z.eqb_refl. reflexivity.
    - rewrite existsb_map_same.
      + apply not_true_is_false. intro E. apply existsb_exists in E as (x & Hx & Hp).
        apply andb_true_iff in Hp as (Hp & _).
        assert (E2 : existsb (fun t => String.eqb (t_token_hash t)
                                                  (hashToken en (drawn_token req)))
                             (vote_tokens d) = true)
          by (apply existsb_exists; exists x; auto).
        congruence.
      + intro x.
        destruct (revoke_row_keeps (e_id active) (r_unit_id rr) x) as (_ & -> & -> & _).
        reflexivity. }
  rewrite (post_votar_accepts en' d' active cast row n Hr Hsel eq_refl Hb).
  - simpl. rewrite Htok, Hv. split; [reflexivity|].
    eexists. split; [reflexivity|]. repeat split.
  - rewrite Hlists. exact Hn.
  - rewrite Hv. exact Hfree.
Qed.

Lemma issued_credential_is_accepted_witness :
  fst (post_votar Scenario.env0 Scenario.db2 (Scenario.council "tokB" 2))
  = Redirect "/votar/tokB".
Proof.
  destruct (issued_credential_is_accepted
              Scenario.env0 Scenario.db1
              (AdminRequest Scenario.committee 1 "tokB" (Mailed true)) Scenario.db2)
    as (active & rr & Ha & Hin & _ & H).
  - right. vm_compute. reflexivity.
  - vm_compute in Ha. injection Ha as <-.
    vm_compute in Hin. destruct Hin as [<-|[]].
    apply (H Scenario.env0 (Scenario.council "tokB" 2) 2).
    + reflexivity.
    + reflexivity.
    + vm_compute. reflexivity.
    + reflexivity.
    + vm_compute. auto.
    + vm_compute. intros [].
Defined.



(* ------------------------------------------------------------------ *)
(** ** Further properties: the committee's routes *)

Lemma find_none_forall :
  forall (A : Type) (p : A -> bool) (l : list A),
    (forall x, In x l -> p x = false) -> find p l = None.
Proof.
  intros A p l H. induction l as [|x t IH]; simpl; [reflexivity|].
  rewrite (H x (or_introl eq_refl)). apply IH. intros y Hy. apply H. right. exact Hy.
Qed.

(** After the approval update no registration with that id is pending in
    that election. *)
Lemma approved_none_pending :
  forall eid id now by_admin l,
    find (pending_in eid id)
         (map (fun r => if pending_in eid id r
                        then Registration (r_id r) (r_election_id r) (r_unit_id r)
                                          (r_email r) APPROVED now by_admin
                        else r) l)
    = None.
Proof.
  intros eid id now by_admin l. apply find_none_forall. intros x Hx.
  apply in_map_iff in Hx as (r & <- & _).
  destruct (pending_in eid id r) eqn:E; [|exact E].
  unfold pending_in. simpl. apply andb_false_r.
Qed.

(** X10.  A registration is approved once.  After an approval that issued
    a credential, a further approval of the same registration, with any
    session, drawn token and mail outcome, writes nothing: no second
    credential is issued and none is revoked.  With an admin session the
    answer is the redirect to the page of the registration. *)
Theorem registration_is_approved_once :
  forall en d req d',
    route_aprobar en d req = (Render "admin_link_issued", d') ->
    forall en' req',
      params_id req' = params_id req ->
      snd (route_aprobar en' d' req') = d'
      /\ (truthy (session_admin_id (req_session req')) = true ->
          fst (route_aprobar en' d' req')
          = Redirect ("/admin/solicitudes/" ++ string_of_Z (params_id req))).
Proof.
  intros en d req d' H en' req' Hid.
  apply guarded_issue in H. unfold post_aprobar in H.
  destruct (getActiveElection d) as [active|] eqn:Ha; [|discriminate].
  destruct (req_session req) as [[[adm|]]|]; try discriminate.
  destruct (find (pending_in (e_id active) (params_id req)) (registrations d))
    as [rr|]; [|discriminate].
  unfold insert_token in H.
  match type of H with
  | context [if ?c then _ else _] => destruct c; [discriminate|]
  end.
  injection H as Hd.
  assert (Hact : getActiveElection d' = Some active) by (subst d'; exact Ha).
  assert (Hnone : find (pending_in (e_id active) (params_id req')) (registrations d') = None).
  { subst d'. rewrite Hid. simpl. apply approved_none_pending. }
  unfold route_aprobar, guarded, requireAdmin.
  destruct (truthy (session_admin_id (req_session req'))) eqn:T.
  - unfold post_aprobar. rewrite Hact.
    destruct (req_session req') as [[[adm'|]]|]; try discriminate T.
    rewrite Hnone, Hid. split; [reflexivity|]. intros _. reflexivity.
  - split; [reflexivity|discriminate].
Qed.

Lemma registration_is_approved_once_witness :
  route_aprobar Scenario.env0 Scenario.db1
                (AdminRequest Scenario.committee 1 "tokZ" (Mailed true))
  = (Redirect "/admin/solicitudes/1", Scenario.db1).
Proof.
  destruct (registration_is_approved_once
              Scenario.env0 Scenario.db0
              (AdminRequest Scenario.committee 1 "tokA" (Mailed true)) Scenario.db1
              ltac:(vm_compute; reflexivity)
              Scenario.env0 (AdminRequest Scenario.committee 1 "tokZ" (Mailed true))
              eq_refl) as (H1 & H2).
  specialize (H2 eq_refl).
  destruct (route_aprobar Scenario.env0 Scenario.db1
                          (AdminRequest Scenario.committee 1 "tokZ" (Mailed true)))
    as [r d1].
  simpl in H1, H2. rewrite H1, H2. reflexivity.
Defined.

(** X11.  What the mailer does reaches the audit log only.  Whether the
    mail is sent, skipped or fails, the approval and the re-issue give the
    same answer and write the same registrations, credentials and ballots,
    and the same number of audit rows. *)
Theorem mail_outcome_changes_the_audit_log_only :
  forall en d req m,
    let r0 := route_aprobar en d req in
    let r1 := route_aprobar en d (with_mail req m) in
    let s0 := route_reemitir en d req in
    let s1 := route_reemitir en d (with_mail req m) in
    (fst r1 = fst r0
     /\ registrations (snd r1) = registrations (snd r0)
     /\ vote_tokens (snd r1) = vote_tokens (snd r0)
     /\ votes (snd r1) = votes (snd r0) /\ fiscal_votes (snd r1) = fiscal_votes (snd r0)
     /\ List.length (audit_log (snd r1)) = List.length (audit_log (snd r0)))
    /\ (fst s1 = fst s0
        /\ registrations (snd s1) = registrations (snd s0)
        /\ vote_tokens (snd s1) = vote_tokens (snd s0)
        /\ votes (snd s1) = votes (snd s0) /\ fiscal_votes (snd s1) = fiscal_votes (snd s0)
        /\ List.length (audit_log (snd s1)) = List.length (audit_log (snd s0))).
Proof.
  intros en d req m. cbv zeta. split.
  - unfold route_aprobar, guarded, with_mail. simpl req_session.
    destruct (requireAdmin (req_session req)); [|repeat split].
    unfold post_aprobar. simpl.
    destruct (getActiveElection d) as [active|]; [|repeat split].
    destruct (req_session req) as [[[adm|]]|]; try (repeat split; fail).
    destruct (find _ (registrations d)) as [rr|]; [|repeat split].
    unfold insert_token.
    match goal with
    | |- context [if ?c then _ else _] => destruct c
    end; [repeat split|].
    simpl. repeat split. rewrite !length_app. reflexivity.
  - unfold route_reemitir, guarded, with_mail. simpl req_session.
    destruct (requireAdmin (req_session req)); [|repeat split].
    unfold post_reemitir. simpl.
    destruct (getActiveElection d) as [active|]; [|repeat split].
    destruct (find _ (registrations d)) as [reg|]; [|repeat split].
    unfold insert_token.
    match goal with
    | |- context [if ?c then _ else _] => destruct c
    end; [repeat split|].
    destruct (req_session req) as [[[adm|]]|]; try (repeat split; fail).
    simpl. repeat split. rewrite !length_app. reflexivity.
Qed.

(** X12.  The approval is not one transaction.  If the token drawn for an
    approval has the hash of a stored credential, the insert fails on the
    uniqueness of [token_hash] after the registration was approved and the
    credentials of the unit revoked: the request ends in an uncaught error,
    the registration is no longer pending, the unit has no ACTIVE
    credential left, and nothing was added to the credentials or to the
    audit log. *)
Theorem failed_issue_leaves_the_unit_without_credential :
  forall en d req active adm rr,
    getActiveElection d = Some active ->
    req_session req = Some (Session (Some adm)) ->
    admin_id adm <> 0 ->
    find (pending_in (e_id active) (params_id req)) (registrations d) = Some rr ->
    existsb (fun t => String.eqb (t_token_hash t) (hashToken en (drawn_token req)))
            (vote_tokens d) = true ->
    exists d2,
      route_aprobar en d req = (Uncaught "23505", d2)
      /\ find (pending_in (e_id active) (params_id req)) (registrations d2) = None
      /\ active_credentials d2 (e_id active) (r_unit_id rr) = []
      /\ vote_tokens d2 = map (revoke_row (e_id active) (r_unit_id rr)) (vote_tokens d)
      /\ audit_log d2 = audit_log d.
Proof.
  intros en d req active adm rr Ha Hs Hadm Hf Hdup.
  unfold route_aprobar, guarded, requireAdmin. rewrite Hs. simpl.
  apply Z.eqb_neq in Hadm. rewrite Hadm. simpl.
  unfold post_aprobar. rewrite Ha, Hs, Hf. unfold insert_token.
  assert (E : existsb (fun t => String.eqb (t_token_hash t) (hashToken en (drawn_token req)))
                      (vote_tokens
                         (revoke_active (e_id active) (r_unit_id rr)
                            (with_registrations d
                               (map (fun r =>
                                       if pending_in (e_id active) (params_id req) r
                                       then Registration (r_id r) (r_election_id r)
                                              (r_unit_id r) (r_email r) APPROVED
                                              (Some (sql_now en)) (Some (admin_id adm))
                                       else r)
                                    (registrations d))))) = true).
  { simpl. rewrite existsb_map_same; [exact Hdup|].
    intro x. destruct (revoke_row_keeps (e_id active) (r_unit_id rr) x) as (_ & -> & _).
    reflexivity. }
  rewrite E. eexists. split; [reflexivity|]. simpl.
  split; [apply approved_none_pending|].
  split; [apply revoked_rows_are_not_active|]. split; reflexivity.
Qed.

Lemma failed_issue_leaves_the_unit_without_credential_witness :
  let late : db :=
    Db [Scenario.election1]
       [Registration 1 (Some 1) 7 (Some "vecino@urbisol.pe") APPROVED (Some 1500) (Some 1);
        Registration 2 (Some 1) 7 (Some "vecina@urbisol.pe") PENDING None None]
       (vote_tokens Scenario.db1) [1; 2] [1; 2] [] [] [] [] in
  fst (route_aprobar Scenario.env0 late (AdminRequest Scenario.committee 2 "tokA" (Mailed true)))
  = Uncaught "23505"
  /\ active_credentials
       (snd (route_aprobar Scenario.env0 late
                           (AdminRequest Scenario.committee 2 "tokA" (Mailed true)))) 1 7
     = [].
Proof.
  cbv zeta.
  destruct (failed_issue_leaves_the_unit_without_credential
              Scenario.env0
              (Db [Scenario.election1]
                  [Registration 1 (Some 1) 7 (Some "vecino@urbisol.pe") APPROVED (Some 1500)
                                (Some 1);
                   Registration 2 (Some 1) 7 (Some "vecina@urbisol.pe") PENDING None None]
                  (vote_tokens Scenario.db1) [1; 2] [1; 2] [] [] [] [])
              (AdminRequest Scenario.committee 2 "tokA" (Mailed true))
              Scenario.election1 (Admin 1 "comite@urbisol.pe" "admin")
              (Registration 2 (Some 1) 7 (Some "vecina@urbisol.pe") PENDING None None))
    as (d2 & H & _ & Hact & _).
  - reflexivity.
  - reflexivity.
  - discriminate.
  - vm_compute. reflexivity.
  - vm_compute. reflexivity.
  - rewrite H. split; [reflexivity|exact Hact].
Defined.

(* ------------------------------------------------------------------ *)
(** ** Further properties: activating an election *)







(* ------------------------------------------------------------------ *)
(** ** Further properties: hexadecimal text, digests and plan files *)

Lemma hex_digit_is_lower_hex :
  forall d, 0 <= d < 16 -> is_lower_hex (hex_digit d) = true.
Proof.
  intros d H.
  assert (E : d = 0 \/ d = 1 \/ d = 2 \/ d = 3 \/ d = 4 \/ d = 5 \/ d = 6 \/ d = 7
              \/ d = 8 \/ d = 9 \/ d = 10 \/ d = 11 \/ d = 12 \/ d = 13 \/ d = 14 \/ d = 15)
    by lia.
  repeat (destruct E as [E|E]; [subst d; reflexivity|]). subst d. reflexivity.
Qed.

Lemma hex_of_bytes_app :
  forall a b, hex_of_bytes (a ++ b) = (hex_of_bytes a ++ hex_of_bytes b)%string.
Proof.
  induction a as [|x t IH]; intro b; simpl; [reflexivity|]. rewrite IH. reflexivity.
Qed.

Lemma hex_of_bytes_format :
  forall l,
    bytes l ->
    String.length (hex_of_bytes l) = (2 * List.length l)%nat
    /\ string_forallb is_lower_hex (hex_of_bytes l) = true.
Proof.
  intros l H. induction H as [|b t Hb Ht (IHl & IHc)]; simpl; [split; reflexivity|].
  split; [rewrite IHl; lia|].
  rewrite IHc, !hex_digit_is_lower_hex; [reflexivity| |].
  - apply Z.mod_pos_bound. lia.
  - split; [apply Z.div_pos; lia|apply Z.div_lt_upper_bound; lia].
Qed.

Lemma hex_run_app :
  forall h rest,
    string_forallb is_lower_hex h = true ->
    hex_run (String.length h) (h ++ rest) = Some rest.
Proof.
  induction h as [|c t IH]; intros rest H; simpl in *; [reflexivity|].
  apply andb_true_iff in H as (Hc & Ht). rewrite Hc. apply IH. exact Ht.
Qed.

Lemma hex_run_inv :
  forall n s rest,
    hex_run n s = Some rest ->
    exists h, s = (h ++ rest)%string /\ String.length h = n
              /\ string_forallb is_lower_hex h = true.
Proof.
  induction n as [|k IH]; intros s rest H; simpl in H.
  - inversion H. exists EmptyString. repeat split.
  - destruct s as [|c t]; [discriminate|].
    destruct (is_lower_hex c) eqn:Hc; [|discriminate].
    apply IH in H as (h & -> & Hl & Hh).
    exists (String c h). simpl. rewrite Hc, Hh, Hl. repeat split.
Qed.

(** X14.  A plan that was uploaded is served.  Whatever 24 bytes are drawn
    for its name, the name the storage gives the file passes the check of
    [GET /plan/:filename], and the route sends that file. *)
Theorem uploaded_plan_is_served :
  forall files random,
    bytes random ->
    List.length random = 24%nat ->
    plan_filename_ok (fst (store_upload files random)) = true
    /\ get_plan (snd (store_upload files random)) (Some (fst (store_upload files random)))
       = SendFile (randName random ".pdf").
Proof.
  intros files random Hb Hl. unfold store_upload. simpl fst. simpl snd.
  destruct (hex_of_bytes_format random Hb) as (Hlen & Hhex).
  assert (Hok : plan_filename_ok (randName random ".pdf") = true).
  { unfold plan_filename_ok, randName.
    replace 48%nat with (String.length (hex_of_bytes random)) by (rewrite Hlen, Hl; reflexivity).
    rewrite (hex_run_app _ _ Hhex). reflexivity. }
  split; [exact Hok|].
  unfold get_plan. rewrite Hok. simpl. rewrite String.eqb_refl. reflexivity.
Qed.

Lemma uploaded_plan_is_served_witness :
  get_plan (snd (store_upload [] (repeat 171 24))) (Some (randName (repeat 171 24) ".pdf"))
  = SendFile (randName (repeat 171 24) ".pdf").
Proof.
  refine (proj2 (uploaded_plan_is_served [] (repeat 171 24) _ _)).
  - unfold bytes. simpl. repeat constructor; lia.
  - reflexivity.
Defined.

(** X15.  The plan route serves nothing but plain names.  A name it sends
    is the name asked for, is the name of a file of the upload directory,
    and is 48 characters of [0-9a-f] followed by ".pdf": it has no path
    separator and no dot but the one of the extension.  A missing name is
    answered 404. *)
Theorem plan_route_serves_plain_names :
  forall files filename name,
    get_plan files filename = SendFile name ->
    filename = Some name
    /\ In name files
    /\ exists h, name = (h ++ ".pdf")%string
                 /\ String.length h = 48%nat
                 /\ string_forallb is_lower_hex h = true.
Proof.
  intros files filename name H. unfold get_plan in H.
  destruct filename as [fn|].
  - destruct (plan_filename_ok fn) eqn:Hok; simpl in H; [|discriminate].
    destruct (existsb (String.eqb fn) files) eqn:Hex; simpl in H; [|discriminate].
    inversion H; subst. split; [reflexivity|]. split.
    + apply existsb_exists in Hex as (x & Hin & Hx). apply String.eqb_eq in Hx.
      subst x. exact Hin.
    + unfold plan_filename_ok in Hok.
      destruct (hex_run 48 name) as [rest|] eqn:Hr; [|discriminate].
      apply String.eqb_eq in Hok. subst rest.
      apply hex_run_inv in Hr. exact Hr.
  - simpl in H. discriminate.
Qed.

Lemma plan_route_serves_plain_names_witness :
  exists h, randName (repeat 171 24) ".pdf" = (h ++ ".pdf")%string
            /\ String.length h = 48%nat.
Proof.
  destruct (plan_route_serves_plain_names
              [randName (repeat 171 24) ".pdf"] (Some (randName (repeat 171 24) ".pdf"))
              (randName (repeat 171 24) ".pdf"))
    as (_ & _ & h & H1 & H2 & _).
  - vm_compute. reflexivity.
  - exists h. split; assumption.
Defined.

Lemma be_bytes_format :
  forall n x, List.length (Sha256.be_bytes n x) = n /\ bytes (Sha256.be_bytes n x).
Proof.
  induction n as [|k IH]; intro x; simpl; [split; [reflexivity|constructor]|].
  destruct (IH (x / 256)) as (Hl & Hb). split.
  - rewrite length_app, Hl. simpl. lia.
  - apply Forall_app. split; [exact Hb|].
    constructor; [apply Z.mod_pos_bound; lia|constructor].
Qed.

Lemma blocks_length :
  forall fuel h ws,
    List.length h = 8%nat -> List.length (Sha256.blocks fuel h ws) = 8%nat.
Proof.
  induction fuel as [|k IH]; intros h ws H; simpl; [exact H|].
  destruct ws; [exact H|]. apply IH. reflexivity.
Qed.

Lemma digest_format :
  forall msg, List.length (Sha256.digest msg) = 32%nat /\ bytes (Sha256.digest msg).
Proof.
  intro msg. unfold Sha256.digest.
  set (ws := Sha256.words_of _ _).
  pose proof (blocks_length (List.length ws) Sha256.initial_state ws eq_refl) as H.
  generalize dependent (Sha256.blocks (List.length ws) Sha256.initial_state ws).
  intros l H.
  assert (G : forall l0, List.length (flat_map (Sha256.be_bytes 4) l0)
                         = (4 * List.length l0)%nat
                         /\ bytes (flat_map (Sha256.be_bytes 4) l0)).
  { induction l0 as [|x t (IHl & IHb)]; [split; [reflexivity|constructor]|].
    cbn [flat_map].
    destruct (be_bytes_format 4 x) as (Hl & Hb). split.
    - rewrite length_app, IHl, Hl. cbn [List.length]. lia.
    - apply Forall_app. split; assumption. }
  destruct (G l) as (Gl & Gb). split; [rewrite Gl, H; reflexivity|exact Gb].
Qed.

Lemma sha256Hex_length : forall s, String.length (sha256Hex s) = 64%nat.
Proof.
  intro s. unfold sha256Hex.
  destruct (digest_format (bytes_of_string s)) as (Hl & Hb).
  destruct (hex_of_bytes_format _ Hb) as (H1 & _).
  rewrite H1, Hl. reflexivity.
Qed.

(** X16.  Whatever text is hashed, [sha256Hex] yields 64 characters of
    [0-9a-f].  So does [hashToken], for every token and every value of
    TOKEN_SECRET: the hash stored for a credential always has that
    form. *)
Theorem sha256Hex_format :
  forall s,
    String.length (sha256Hex s) = 64%nat
    /\ string_forallb is_lower_hex (sha256Hex s) = true
    /\ forall en token,
        String.length (hashToken en token) = 64%nat
        /\ string_forallb is_lower_hex (hashToken en token) = true.
Proof.
  assert (G : forall s, String.length (sha256Hex s) = 64%nat
                        /\ string_forallb is_lower_hex (sha256Hex s) = true).
  { intro s. unfold sha256Hex.
    destruct (digest_format (bytes_of_string s)) as (Hl & Hb).
    destruct (hex_of_bytes_format _ Hb) as (H1 & H2).
    split; [rewrite H1, Hl; reflexivity|exact H2]. }
  intro s. destruct (G s) as (H1 & H2). split; [exact H1|]. split; [exact H2|].
  intros en token. apply G.
Qed.

(* ------------------------------------------------------------------ *)
(** ** Further properties: the verifier *)

Lemma expectedHash_length :
  forall pb r prev, String.length (expectedHash pb r prev) = 64%nat.
Proof.
  intros pb r prev. unfold expectedHash. apply sha256Hex_length.
Qed.

Lemma linked_last :
  forall pb prev rows last,
    linked pb prev rows last ->
    rows <> [] ->
    exists p, In p rows /\ last = b_vote_hash p.
Proof.
  intros pb prev rows last H. induction H as [prev|prev r rest last H1 H2 H3 IH]; intro Hne.
  - contradiction.
  - destruct rest as [|x t].
    + inversion H3; subst. exists r. split; [left; reflexivity|reflexivity].
    + destruct IH as (p & Hin & Hp); [discriminate|].
      exists p. split; [right; exact Hin|exact Hp].
Qed.

Lemma linked_rows_carry_digests :
  forall pb prev rows last,
    linked pb prev rows last ->
    forall r, In r rows ->
      exists h, b_vote_hash r = Some h /\ String.length h = 64%nat.
Proof.
  intros pb prev rows last H. induction H as [prev|prev r rest last H1 H2 H3 IH]; intros x Hin.
  - contradiction.
  - destruct Hin as [<-|Hin]; [|apply IH; exact Hin].
    eexists. split; [exact H2|apply expectedHash_length].
Qed.

(** X17.  In a table the verifier accepts, the word GENESIS marks the first
    record and no other.  The first record of the walk stores "GENESIS" as
    previous hash; every later record stores the digest of the record
    before it, which is 64 characters long and so is not that word; and
    every record stores a digest of 64 characters as its own hash, so the
    text "null" of a missing hash never enters the global hash. *)
Theorem genesis_marks_the_first_record_only :
  forall table pb kind seals eid rep g,
    verifyTable table pb kind seals eid = inr (rep, g) ->
    (forall r rest, select_chain table eid = r :: rest ->
                    b_previous_hash r = Some "GENESIS")
    /\ (forall l1 r l2,
          select_chain table eid = l1 ++ r :: l2 -> l1 <> [] ->
          b_previous_hash r <> Some "GENESIS"
          /\ exists p, In p l1 /\ b_previous_hash r = b_vote_hash p)
    /\ (forall r, In r (select_chain table eid) ->
          exists h, b_vote_hash r = Some h /\ String.length h = 64%nat).
Proof.
  intros table pb kind seals eid rep g H.
  apply verifyTable_passed in H as ((last & Hl) & _).
  split; [|split].
  - intros r rest E. rewrite E in Hl. inversion Hl; subst. assumption.
  - intros l1 r l2 E Hne. rewrite E in Hl.
    apply linked_split in Hl as (mid & Ha & Hb).
    inversion Hb; subst.
    destruct (linked_last _ _ _ _ Ha Hne) as (p & Hin & Hp).
    destruct (linked_rows_carry_digests _ _ _ _ Ha p Hin) as (h & Hh & Hlen).
    split.
    + rewrite Hp, Hh. intro C. inversion C; subst h. simpl in Hlen. discriminate.
    + exists p. split; [exact Hin|exact Hp].
  - intros r Hin. exact (linked_rows_carry_digests _ _ _ _ Hl r Hin).
Qed.

Lemma genesis_marks_the_first_record_only_witness :
  b_previous_hash Chains.first = Some "GENESIS"
  /\ b_previous_hash Chains.second <> Some "GENESIS".
Proof.
  destruct (genesis_marks_the_first_record_only
              Chains.sound payload_votes "COUNCIL" [Chains.sound_seal] 1
              SealMatches (s_global_hash Chains.sound_seal))
    as (H1 & H2 & _).
  - vm_compute. reflexivity.
  - split.
    + apply (H1 Chains.first [Chains.second; Chains.third]). vm_compute. reflexivity.
    + apply (H2 [Chains.first] Chains.second [Chains.third]).
      * vm_compute. reflexivity.
      * discriminate.
Defined.

Lemma position_leb_antisym :
  forall a b, position_leb a b = true -> position_leb b a = true -> a = b.
Proof.
  intros [x|] [y|] H1 H2; simpl in *; try discriminate; [|reflexivity].
  f_equal. lia.
Qed.

Lemma filter_permutation :
  forall (A : Type) (p : A -> bool) (l1 l2 : list A),
    Permutation l1 l2 -> Permutation (filter p l1) (filter p l2).
Proof.
  intros A p l1 l2 H. induction H; simpl.
  - constructor.
  - destruct (p x); [constructor|]; assumption.
  - destruct (p x), (p y); try apply Permutation_refl. apply perm_swap.
  - eapply perm_trans; eassumption.
Qed.

Lemma sorted_rows_are_unique :
  forall l1 l2,
    StronglySorted before l1 -> StronglySorted before l2 ->
    Permutation l1 l2 ->
    NoDup (map b_chain_position l1) ->
    l1 = l2.
Proof.
  induction l1 as [|a t IH]; intros l2 S1 S2 P N.
  - apply Permutation_nil in P. subst. reflexivity.
  - destruct l2 as [|b u].
    { apply Permutation_sym, Permutation_nil in P. discriminate. }
    inversion S1 as [|? ? S1t A1]; subst. inversion S2 as [|? ? S2t A2]; subst.
    inversion N as [|? ? Nin Nt]; subst.
    assert (E : a = b).
    { assert (Ia : In a (b :: u)) by (apply (Permutation_in _ P); left; reflexivity).
      assert (Ib : In b (a :: t))
        by (apply (Permutation_in _ (Permutation_sym P)); left; reflexivity).
      destruct Ia as [Ia|Ia]; [symmetry; exact Ia|].
      destruct Ib as [Ib|Ib]; [exact Ib|].
      exfalso. apply Nin.
      rewrite Forall_forall in A1, A2.
      rewrite (position_leb_antisym _ _ (A1 b Ib) (A2 a Ia)).
      apply in_map. exact Ib. }
    subst b. f_equal. apply IH; try assumption.
    apply Permutation_cons_inv in P. exact P.
Qed.

(** X18.  The verdict does not depend on the order in which the table holds
    its rows, as long as the records of the election have distinct chain
    positions: the walk visits the same records in the same order, so the
    outcome of [verifyTable] is the same, error or global hash. *)
Theorem verification_ignores_storage_order :
  forall t1 t2 pb kind seals eid,
    Permutation t1 t2 ->
    NoDup (map b_chain_position
               (filter (fun r => opt_Z_eqb (b_election_id r) (Some eid)) t1)) ->
    select_chain t1 eid = select_chain t2 eid
    /\ verifyTable t1 pb kind seals eid = verifyTable t2 pb kind seals eid.
Proof.
  intros t1 t2 pb kind seals eid P N.
  assert (E : select_chain t1 eid = select_chain t2 eid).
  { destruct (select_chain_spec t1 eid) as (P1 & S1).
    destruct (select_chain_spec t2 eid) as (P2 & S2).
    apply sorted_rows_are_unique; try assumption.
    - eapply perm_trans; [apply Permutation_sym; exact P1|].
      eapply perm_trans; [|exact P2].
      apply filter_permutation. exact P.
    - eapply Permutation_NoDup; [|exact N].
      apply Permutation_map. exact P1. }
  split; [exact E|]. unfold verifyTable. rewrite E. reflexivity.
Qed.

Lemma verification_ignores_storage_order_witness :
  verifyTable Chains.sound payload_votes "COUNCIL" [Chains.sound_seal] 1
  = verifyTable (rev Chains.sound) payload_votes "COUNCIL" [Chains.sound_seal] 1.
Proof.
  refine (proj2 (verification_ignores_storage_order
                   Chains.sound (rev Chains.sound) payload_votes "COUNCIL"
                   [Chains.sound_seal] 1 _ _)).
  - apply Permutation_rev.
  - vm_compute. repeat constructor; simpl; intuition discriminate.
Defined.




(* ------------------------------------------------------------------ *)
(** ** Further properties: the public results *)

Lemma place_candidate_perm :
  forall c l, Permutation (c :: l) (place_candidate c l).
Proof.
  intros c l. induction l as [|h t IH]; simpl.
  - apply Permutation_refl.
  - destruct (c_sort_order h <=? c_sort_order c).
    + eapply perm_trans; [apply perm_swap|]. constructor. exact IH.
    + apply Permutation_refl.
Qed.

Lemma order_by_sort_order_perm :
  forall rows, Permutation rows (order_by_sort_order rows).
Proof.
  intro rows. unfold order_by_sort_order.
  assert (G : forall acc,
             Permutation (acc ++ rows)
                         (fold_left (fun a c => place_candidate c a) rows acc)).
  { induction rows as [|c rest IH]; intro acc; simpl.
    - rewrite app_nil_r. apply Permutation_refl.
    - eapply perm_trans; [|apply IH].
      eapply perm_trans; [apply Permutation_sym, Permutation_middle|].
      apply (Permutation_app_tail rest (place_candidate_perm c acc)). }
  apply (G []).
Qed.











(** X21.  A ballot for a list of another campaign.  The council cast
    checks the list chosen against the key of [candidates] only.  When the
    list is not one of the active campaign, the ballot is stored all the
    same: it uses up the vote of the unit and raises [metrics.votes] by
    one, and the total of no list of the campaign changes. *)
Theorem ballot_for_a_foreign_list_counts_for_no_list :
  forall cands en d election req vt n,
    keys_of cands d ->
    NoDup (map c_id cands) ->
    reaches_credential en d election (body_candidate_id req) ->
    select_token d (hashToken en (params_token req)) (e_id election) = Some vt ->
    t_status vt = ACTIVE ->
    body_candidate_id req = Int n ->
    In n (candidates d) ->
    ~ In (t_unit_id vt) (council_keys (votes d)) ->
    (forall c, In c cands -> c_id c = n -> c_election_id c <> Some (e_id election)) ->
    let d' := snd (post_votar en d req) in
    fst (post_votar en d req) = Redirect ("/votar/" ++ params_token req)
    /\ In (t_unit_id vt) (council_keys (votes d'))
    /\ count_votes (votes d') (e_id election) = count_votes (votes d) (e_id election) + 1
    /\ totals cands (votes d') (e_id election) = totals cands (votes d) (e_id election).
Proof.
  intros cands en d election req vt n Hk N Hr Hs Hact Hb Hn Hfree Hforeign d'.
  subst d'. rewrite (post_votar_accepts en d election req vt n Hr Hs Hact Hb Hn Hfree).
  cbn [fst snd]. split; [reflexivity|].
  change (votes (audit _ _))
    with (votes d ++ [new_ballot en (votes d) (e_id election) vt n req]).
  split; [|split].
  - unfold council_keys. rewrite map_app. apply in_or_app. right. left. reflexivity.
  - unfold count_votes. rewrite filter_app, length_app. cbn [filter new_ballot b_election_id].
    simpl opt_Z_eqb. rewrite Z.eqb_refl. cbn [List.length]. lia.
  - unfold totals. apply map_ext_in. intros c Hc. f_equal.
    unfold joined_votes. rewrite filter_app, length_app.
    cbn [filter new_ballot b_election_id b_choice_id].
    replace (n =? c_id c) with false; [cbn [andb List.length]; f_equal; lia|].
    symmetry. apply Z.eqb_neq. intro E.
    apply (Permutation_in _ (Permutation_sym (order_by_sort_order_perm _))) in Hc.
    apply filter_In in Hc as (Hin & He).
    apply (Hforeign c Hin (eq_sym E)).
    destruct (c_election_id c) as [k|]; simpl in He; [|discriminate].
    apply Z.eqb_eq in He. subst. reflexivity.
Qed.

Lemma ballot_for_a_foreign_list_counts_for_no_list_witness :
  count_votes (votes (snd (post_votar Scenario.env0 Scenario.db1
                                      (Scenario.council "tokA" 2)))) 1
  = count_votes (votes Scenario.db1) 1 + 1
  /\ totals two_lists
            (votes (snd (post_votar Scenario.env0 Scenario.db1
                                    (Scenario.council "tokA" 2)))) 1
     = totals two_lists (votes Scenario.db1) 1.
Proof.
  refine (proj2 (proj2 (ballot_for_a_foreign_list_counts_for_no_list
                          two_lists Scenario.env0 Scenario.db1 Scenario.election1
                          (Scenario.council "tokA" 2)
                          (Token 1 (Some 1) 1 7 (hashToken Scenario.env0 "tokA") ACTIVE
                                 1500 None "EMAIL")
                          2 _ _ _ _ _ _ _ _ _))).
  - vm_compute. reflexivity.
  - vm_compute. repeat constructor; simpl; intuition discriminate.
  - split; [vm_compute; reflexivity|]. split; [vm_compute; reflexivity|discriminate].
  - vm_compute. reflexivity.
  - reflexivity.
  - reflexivity.
  - vm_compute. auto.
  - vm_compute. intros [].
  - intros c Hc Hid. vm_compute in Hc. destruct Hc as [<-|[<-|[]]]; [discriminate|discriminate].
Defined.

(* ------------------------------------------------------------------ *)
(** ** Further properties: the fields of the CSV exports *)

Lemma double_quotes_injective :
  forall a b, double_quotes a = double_quotes b -> a = b.
Proof.
  induction a as [|x a IH]; intros [|y b] H; simpl in H.
  - reflexivity.
  - destruct (Ascii.eqb y dquote); discriminate.
  - destruct (Ascii.eqb x dquote); discriminate.
  - destruct (Ascii.eqb x dquote) eqn:Ex, (Ascii.eqb y dquote) eqn:Ey.
    + apply Ascii.eqb_eq in Ex, Ey. subst. inversion H. f_equal. apply IH. assumption.
    + inversion H; subst. rewrite Ascii.eqb_refl in Ey. discriminate.
    + inversion H; subst. rewrite Ascii.eqb_refl in Ex. discriminate.
    + inversion H; subst. f_equal. apply IH. assumption.
Qed.

Lemma quoted_injective :
  forall a b,
    String dquote (double_quotes a ++ String dquote EmptyString)
    = String dquote (double_quotes b ++ String dquote EmptyString) ->
    a = b.
Proof.
  intros a b H. inversion H as [H1].
  apply append_inv_tail in H1. apply double_quotes_injective. exact H1.
Qed.

(** X22.  A field of an export tells the text it was made from: two texts
    that [escape] writes the same way are the same text, quoted or not.
    (NULL is written as the empty text is, so the two are not told
    apart.) *)
Theorem export_field_determines_its_text :
  (forall a b, escape (CText a) = escape (CText b) -> a = b)
  /\ escape CNull = escape (CText EmptyString).
Proof.
  split; [|reflexivity].
  intros a b H. unfold escape in H. cbn [text_of_cell] in H.
  destruct (includes dquote a || includes "," a || includes newline a) eqn:Ea;
    destruct (includes dquote b || includes "," b || includes newline b) eqn:Eb.
  - apply quoted_injective. exact H.
  - subst b. cbn [includes] in Eb. rewrite Ascii.eqb_refl in Eb. discriminate.
  - subst a. cbn [includes] in Ea. rewrite Ascii.eqb_refl in Ea. discriminate.
  - exact H.
Qed.

Lemma export_field_determines_its_text_witness :
  "Calle 1, Casa 2" = "Calle 1, Casa 2".
Proof.
  apply (proj1 export_field_determines_its_text "Calle 1, Casa 2" "Calle 1, Casa 2").
  reflexivity.
Defined.
